(** * Readiness check of src/App.tsx: frame evaluation, streak and sampling loop

    A shallow embedding of the component [App] of src/App.tsx:
    the thresholds, the checklist, the body of [analyzeFrame] (capture,
    detection, the five criteria, the streak), the timers of the sampling
    effect and the handlers [startCheck], [resetCheck] and [onCameraReady].

    JavaScript numbers are IEEE 754 binary64 values; they are modelled by
    Rocq's primitive floats, which are the same format, so comparisons and
    arithmetic (including NaN and division by zero) behave as in the source. *)

From Stdlib Require Import Floats ZArith Lia Bool.
From stdpp Require Import base list strings.

Set Warnings "-inexact-float".

(** ** Thresholds (src/App.tsx, lines 19-27) *)

Record Thresholds := {
  CENTER_TOLERANCE : float;
  HEAD_YAW_LIMIT : float;
  HEAD_ROLL_LIMIT : float;
  EYE_OPEN_THRESHOLD : float;
  EXPRESSION_THRESHOLD : float;
  MIN_FACE_SIZE : float;
  MAX_FACE_SIZE : float;
}.

Definition THRESHOLDS : Thresholds := {|
  CENTER_TOLERANCE := 0.22;
  HEAD_YAW_LIMIT := 18;
  HEAD_ROLL_LIMIT := 15;
  EYE_OPEN_THRESHOLD := 0.4;
  EXPRESSION_THRESHOLD := 0.12;
  MIN_FACE_SIZE := 0.15;
  MAX_FACE_SIZE := 0.80;
|}.

(** ** Checklist (lines 29-53) *)

Inductive CheckStatus := checking | pass | fail.

#[global] Instance CheckStatus_eq_dec : EqDecision CheckStatus.
Proof. solve_decision. Defined.

(** A checklist entry is a JavaScript object.  Its keys are those of the
    interface [ChecklistItem]; a key is [None] when the object does not have
    it, which is what the spread of a missing array entry produces. *)
Module Item.
Record ChecklistItem := mk {
  id : option string;
  label : option string;
  status : option CheckStatus;
  detail : option string;
  icon : option string;
}.

(** [{}], also what [{...undefined}] evaluates to. *)
Definition emptyObject : ChecklistItem := mk None None None None None.

(** [{ ...it, status: st, detail: dt }] *)
Definition spreadWith (it : ChecklistItem) (st : CheckStatus) (dt : string)
  : ChecklistItem :=
  mk (id it) (label it) (Some st) (Some dt) (icon it).
End Item.
Export Item (ChecklistItem).

(** The array literal of lines 48-52 and 232-236. *)
Definition initialChecklist : list ChecklistItem := [
  Item.mk (Some "face") (Some "Face Detected") (Some checking) (Some "Looking...") (Some "👤");
  Item.mk (Some "framing") (Some "Face Centered") (Some checking) (Some "Checking...") (Some "📐");
  Item.mk (Some "eyeContact") (Some "Eye Contact") (Some checking) (Some "Checking...") (Some "👀");
  Item.mk (Some "expression") (Some "Good Expression") (Some checking) (Some "Checking...") (Some "😊");
  Item.mk (Some "headPosition") (Some "Head Position") (Some checking) (Some "Checking...") (Some "🎯")
]%string.

(** ** JavaScript arrays of checklist entries

    [arr[i]] read under a spread: an index past the end (or a hole) reads
    [undefined], and [{...undefined}] is the empty object. *)
Definition getItem (arr : list ChecklistItem) (i : nat) : ChecklistItem :=
  default Item.emptyObject (arr !! i).

(** [arr[i] = v]: in range the entry is replaced; past the end the array is
    extended, the entries in between being holes.  Every read of this program
    treats a hole as the empty object, so holes are stored as such. *)
Definition setItem (i : nat) (v : ChecklistItem) (arr : list ChecklistItem)
  : list ChecklistItem :=
  if decide (i < length arr) then <[i := v]> arr
  else arr ++ replicate (i - length arr) Item.emptyObject ++ [v].

(** [arr[i] = { ...arr[i], status: st, detail: dt }] *)
Definition assign (i : nat) (st : CheckStatus) (dt : string)
    (arr : list ChecklistItem) : list ChecklistItem :=
  setItem i (Item.spreadWith (getItem arr i) st dt) arr.

Definition statusAt (arr : list ChecklistItem) (i : nat) : option CheckStatus :=
  Item.status (getItem arr i).

Definition detailAt (arr : list ChecklistItem) (i : nat) : option string :=
  Item.detail (getItem arr i).

(** [checklist.filter(i => i.status === 'pass').length] (line 259) *)
Definition passedCount (arr : list ChecklistItem) : nat :=
  length (filter (fun it => Item.status it = Some pass) arr).

(** ** Collaborators' data (expo-camera and ML Kit face detection) *)

Module Photo.
(** [CameraCapturedPicture]: the fields the program reads. *)
Record t := mk { uri : string; width : float; height : float }.
End Photo.

Module Frame.
Record t := mk { left : float; top : float; width : float; height : float }.
End Frame.

Module Face.
(** A detected face, read through [as any]: the bounding box and the
    optional classification fields; [None] is [undefined] or [null]. *)
Record t := mk {
  frame : Frame.t;
  headEulerAngleY : option float;
  yawAngle : option float;
  headEulerAngleZ : option float;
  rollAngle : option float;
  smilingProbability : option float;
  leftEyeOpenProbability : option float;
  rightEyeOpenProbability : option float;
}.
End Face.

(** [a ?? b] *)
Definition nullish {A} (a : option A) (b : A) : A :=
  match a with Some x => x | None => b end.
Infix "??" := nullish (at level 45, left associativity).

(** ** The criteria (lines 112-177)

    The local constants of [analyzeFrame] are functions of the first face
    and of the photo. *)
Section Criteria.
Local Open Scope float_scope.
Variables (face : Face.t) (photo : Photo.t).

Definition faceCenterX : float :=
  (Frame.left (Face.frame face) + Frame.width (Face.frame face) / 2) / Photo.width photo.
Definition faceCenterY : float :=
  (Frame.top (Face.frame face) + Frame.height (Face.frame face) / 2) / Photo.height photo.
Definition faceWidthRatio : float :=
  Frame.width (Face.frame face) / Photo.width photo.

Definition yawAngle : float :=
  match Face.headEulerAngleY face with
  | Some a => a
  | None => Face.yawAngle face ?? 0
  end.
Definition rollAngle : float :=
  match Face.headEulerAngleZ face with
  | Some a => a
  | None => Face.rollAngle face ?? 0
  end.
Definition smileProb : float := Face.smilingProbability face ?? 0.
Definition leftEyeOpen : float := Face.leftEyeOpenProbability face ?? 0.8.
Definition rightEyeOpen : float := Face.rightEyeOpenProbability face ?? 0.8.

Definition offX : float := abs (faceCenterX - 0.5).
Definition offY : float := abs (faceCenterY - 0.5).
Definition centered : bool :=
  (offX <? CENTER_TOLERANCE THRESHOLDS)
  && (offY <? CENTER_TOLERANCE THRESHOLDS + 0.1).
(** [a >= b] on numbers is [b <= a]; both are false on NaN. *)
Definition goodSize : bool :=
  (MIN_FACE_SIZE THRESHOLDS <=? faceWidthRatio)
  && (faceWidthRatio <=? MAX_FACE_SIZE THRESHOLDS).
(** [a > b] is [b < a]. *)
Definition framingHint : string :=
  if negb centered then
    if offY <? offX
    then (if faceCenterX <? 0.5 then "Move right" else "Move left")
    else (if faceCenterY <? 0.5 then "Move down" else "Move up")
  else if faceWidthRatio <? MIN_FACE_SIZE THRESHOLDS then "Move closer" else "Move back".

Definition eyesOk : bool :=
  (EYE_OPEN_THRESHOLD THRESHOLDS <? leftEyeOpen)
  && (EYE_OPEN_THRESHOLD THRESHOLDS <? rightEyeOpen).
Definition lookingOk : bool := abs yawAngle <? HEAD_YAW_LIMIT THRESHOLDS.

(** The five updates of the branch [faces.length > 0], threading
    [newChecklist] and [passCount]. *)
Definition checkFace (acc : list ChecklistItem * nat) : list ChecklistItem * nat :=
  let '(newChecklist, passCount) := acc in
  (assign 0 pass "Visible" newChecklist, S passCount).

Definition checkFraming (acc : list ChecklistItem * nat) : list ChecklistItem * nat :=
  let '(newChecklist, passCount) := acc in
  if centered && goodSize
  then (assign 1 pass "Perfect" newChecklist, S passCount)
  else (assign 1 fail framingHint newChecklist, passCount).

Definition checkEyes (acc : list ChecklistItem * nat) : list ChecklistItem * nat :=
  let '(newChecklist, passCount) := acc in
  if eyesOk && lookingOk
  then (assign 2 pass "Great!" newChecklist, S passCount)
  else (assign 2 fail (if negb eyesOk then "Open eyes" else "Look at camera")
          newChecklist, passCount).

Definition checkExpression (acc : list ChecklistItem * nat) : list ChecklistItem * nat :=
  let '(newChecklist, passCount) := acc in
  if EXPRESSION_THRESHOLD THRESHOLDS <? smileProb
  then (assign 3 pass (if 0.5 <? smileProb then "Great energy!" else "Engaged")
          newChecklist, S passCount)
  else (assign 3 fail "Smile a bit" newChecklist, passCount).

Definition checkPosition (acc : list ChecklistItem * nat) : list ChecklistItem * nat :=
  let '(newChecklist, passCount) := acc in
  if abs rollAngle <? HEAD_ROLL_LIMIT THRESHOLDS
  then (assign 4 pass "Good" newChecklist, S passCount)
  else (assign 4 fail "Straighten head" newChecklist, passCount).
End Criteria.

(** The [else] branch: no face (lines 175-176). *)
Definition noFace (newChecklist : list ChecklistItem) : list ChecklistItem :=
  let newChecklist := assign 0 fail "Not found" newChecklist in
  foldl (fun arr i => assign i checking "Need face" arr) newChecklist (seq 1 4).

(** Lines 112-177: from the checklist of the closure, the detected faces and
    the photo, the new checklist and the local [passCount]. *)
Definition evaluate (checklist : list ChecklistItem) (faces : list Face.t)
    (photo : Photo.t) : list ChecklistItem * nat :=
  let newChecklist := checklist in
  let passCount := 0 in
  match faces with
  | face :: _ =>
      checkPosition face
        (checkExpression face
          (checkEyes face
            (checkFraming face photo
              (checkFace (newChecklist, passCount)))))
  | [] => (noFace newChecklist, passCount)
  end.

(** ** Component state, refs and timers (lines 40-58, 198-214) *)

(** The timers of the sampling effect: the one-second [startDelay] timeout,
    then the 800 ms interval stored in [intervalRef]. *)
Inductive Timers := NoTimer | StartDelay | Interval.

(** An [analyzeFrame] call suspended at an [await].  It keeps what its
    closure captured: the [checklist] of the render that created it and,
    after the capture, the photo. *)
Inductive Suspended :=
| AwaitCapture (closure : list ChecklistItem)
| AwaitDetect (closure : list ChecklistItem) (photo : Photo.t).

Record State := mkState {
  (* useState *)
  isReady : bool;
  cameraReady : bool;
  allChecksPassed : bool;
  passStreak : nat;
  checklist : list ChecklistItem;
  (* useRef *)
  cameraRef : bool;          (* [cameraRef.current] is not null *)
  isCapturing : bool;        (* [isCapturing.current] *)
  (* timers owned by the effect of lines 199-214 *)
  timers : Timers;
  (* calls of [analyzeFrame] suspended at an [await] *)
  pending : list Suspended;
  (* what [console.log] printed, latest first *)
  console : list string;
}.

(** The first render: the initial values of lines 42-53 and 55-57.  The
    camera view is mounted (permission granted), so [cameraRef.current] is
    set. *)
Definition initialState : State := {|
  isReady := false; cameraReady := false; allChecksPassed := false;
  passStreak := 0; checklist := initialChecklist;
  cameraRef := true; isCapturing := false;
  timers := NoTimer; pending := []; console := [];
|}.

Definition setIsReady (b : bool) (s : State) : State :=
  mkState b (cameraReady s) (allChecksPassed s) (passStreak s) (checklist s)
    (cameraRef s) (isCapturing s) (timers s) (pending s) (console s).
Definition setCameraReady (b : bool) (s : State) : State :=
  mkState (isReady s) b (allChecksPassed s) (passStreak s) (checklist s)
    (cameraRef s) (isCapturing s) (timers s) (pending s) (console s).
Definition setAllChecksPassed (b : bool) (s : State) : State :=
  mkState (isReady s) (cameraReady s) b (passStreak s) (checklist s)
    (cameraRef s) (isCapturing s) (timers s) (pending s) (console s).
Definition setPassStreak (n : nat) (s : State) : State :=
  mkState (isReady s) (cameraReady s) (allChecksPassed s) n (checklist s)
    (cameraRef s) (isCapturing s) (timers s) (pending s) (console s).
Definition setChecklist (c : list ChecklistItem) (s : State) : State :=
  mkState (isReady s) (cameraReady s) (allChecksPassed s) (passStreak s) c
    (cameraRef s) (isCapturing s) (timers s) (pending s) (console s).
Definition setIsCapturing (b : bool) (s : State) : State :=
  mkState (isReady s) (cameraReady s) (allChecksPassed s) (passStreak s)
    (checklist s) (cameraRef s) b (timers s) (pending s) (console s).
Definition setTimers (t : Timers) (s : State) : State :=
  mkState (isReady s) (cameraReady s) (allChecksPassed s) (passStreak s)
    (checklist s) (cameraRef s) (isCapturing s) t (pending s) (console s).
Definition setPending (p : list Suspended) (s : State) : State :=
  mkState (isReady s) (cameraReady s) (allChecksPassed s) (passStreak s)
    (checklist s) (cameraRef s) (isCapturing s) (timers s) p (console s).
Definition consoleLog (msg : string) (s : State) : State :=
  mkState (isReady s) (cameraReady s) (allChecksPassed s) (passStreak s)
    (checklist s) (cameraRef s) (isCapturing s) (timers s) (pending s)
    (msg :: console s).

(** ** The body of [analyzeFrame] (lines 84-196) *)

(** How an awaited promise settles. *)
Inductive Settled (A : Type) := Fulfilled (a : A) | Rejected.
Arguments Fulfilled {A} a.
Arguments Rejected {A}.

(** How a piece of the [try] block ends: it returns, it throws, or it
    suspends at the next [await]. *)
Inductive Completion := Returned | Thrown | Awaiting (k : Suspended).

Definition Segment := State -> State * Completion.

(** [!photo?.uri]: no photo, or an empty uri. *)
Definition noUri (photo : option Photo.t) : bool :=
  match photo with
  | Some p => if decide (Photo.uri p = EmptyString) then true else false
  | None => true
  end.

(** Lines 181-188.  The updater of [setPassStreak] reads the latest streak. *)
Definition updateStreak (passCount : nat) (s : State) : State :=
  if decide (passCount = 5) then
    let prev := passStreak s in
    let s := if decide (2 <= prev) then setAllChecksPassed true s else s in
    setPassStreak (prev + 1) s
  else setPassStreak 0 s.

(** Lines 86-91: the guard, then the flag; the call then suspends at
    [takePictureAsync].  The closure is that of the latest render. *)
Definition analyzeFrame (s : State) : State :=
  if negb (cameraRef s) || negb (cameraReady s) || isCapturing s || allChecksPassed s
  then s
  else
    let s := setIsCapturing true s in
    setPending (pending s ++ [AwaitCapture (checklist s)]) s.

(** Lines 93-105: after [await takePictureAsync]. *)
Definition afterCapture (closure : list ChecklistItem)
    (r : Settled (option Photo.t)) : Segment := fun s =>
  match r with
  | Rejected => (s, Thrown)
  | Fulfilled photo =>
      if noUri photo then (setIsCapturing false s, Returned)
      else match photo with
           | Some p => (s, Awaiting (AwaitDetect closure p))
           | None => (setIsCapturing false s, Returned)  (* [noUri None] holds *)
           end
  end.

(** Lines 105-188: after [await FaceDetection.detect]. *)
Definition afterDetect (closure : list ChecklistItem) (photo : Photo.t)
    (r : Settled (list Face.t)) : Segment := fun s =>
  match r with
  | Rejected => (s, Thrown)
  | Fulfilled faces =>
      let '(newChecklist, passCount) := evaluate closure faces photo in
      let s := setChecklist newChecklist s in
      (updateStreak passCount s, Returned)
  end.

(** Lines 92, 190-195: [try { body } catch (e) { console.log(...) }
    finally { isCapturing.current = false }].  A body suspended at an
    [await] has left neither the [try] nor the function. *)
Definition tryCatchFinally (body : Segment) : Segment := fun s =>
  let '(s, c) := body s in
  match c with
  | Awaiting k => (s, Awaiting k)
  | Returned => (setIsCapturing false s, Returned)
  | Thrown => (setIsCapturing false (consoleLog "Capture skipped" s), Returned)
  end.

(** ** The sampling effect (lines 199-214)

    Its dependencies are [isReady], [cameraReady], [allChecksPassed] and
    [analyzeFrame], whose identity changes with [checklist],
    [allChecksPassed] and [cameraReady].  When one changed, the cleanup
    clears both timers and the effect arms the start delay again if the
    check is running. *)
Definition samplingEffect (s : State) : State :=
  if isReady s && cameraReady s && negb (allChecksPassed s)
  then setTimers StartDelay s
  else setTimers NoTimer s.

(** The render that follows a handler: [newArray] tells that [setChecklist]
    was called (a new array is a new identity, whatever it holds). *)
Definition commit (newArray : bool) (old new : State) : State :=
  if newArray
     || negb (eqb (isReady old) (isReady new))
     || negb (eqb (cameraReady old) (cameraReady new))
     || negb (eqb (allChecksPassed old) (allChecksPassed new))
  then samplingEffect new
  else new.

(** ** Handlers (lines 216-243) *)

Definition startCheck (s : State) : State :=
  setPassStreak 0 (setAllChecksPassed false (setIsReady true s)).

Definition resetCheck (s : State) : State :=
  let s := setIsReady false s in
  let s := setAllChecksPassed false s in
  let s := setPassStreak 0 s in
  let s := setIsCapturing false s in
  (* [clearInterval(intervalRef.current)]; the start delay is left to the
     cleanup of the effect *)
  let s := match timers s with Interval => setTimers NoTimer s | _ => s end in
  setChecklist initialChecklist s.

Definition onCameraReady (s : State) : State := setCameraReady true s.

(** ** Events and runs *)

Inductive Event :=
| StartCheck
| ResetCheck
| OnCameraReady
| StartDelayElapsed                                  (* the timeout fires *)
| IntervalTick                                       (* the interval fires *)
| CaptureSettled (i : nat) (r : Settled (option Photo.t))
| DetectSettled (i : nat) (r : Settled (list Face.t)).

(** Resuming the [i]-th suspended call with the rest of its body. *)
Definition resume (i : nat) (body : Segment) (s : State) : State * Completion :=
  let '(s', c) := tryCatchFinally body s in
  match c with
  | Awaiting k => (setPending (<[i := k]> (pending s')) s', c)
  | _ => (setPending (delete i (pending s')) s', c)
  end.

(** One event, handled to completion and followed by the render it causes.
    The second component is how the resumed call of [analyzeFrame] ended,
    when the event resumed one. *)
Definition stepC (e : Event) (s : State) : State * option Completion :=
  match e with
  | StartCheck => (commit false s (startCheck s), None)
  | ResetCheck => (commit true s (resetCheck s), None)
  | OnCameraReady => (commit false s (onCameraReady s), None)
  | StartDelayElapsed =>
      (match timers s with StartDelay => setTimers Interval s | _ => s end, None)
  | IntervalTick =>
      (match timers s with Interval => analyzeFrame s | _ => s end, None)
  | CaptureSettled i r =>
      match pending s !! i with
      | Some (AwaitCapture closure) =>
          let '(s', c) := resume i (afterCapture closure r) s in
          (commit false s s', Some c)
      | _ => (s, None)
      end
  | DetectSettled i r =>
      match pending s !! i with
      | Some (AwaitDetect closure photo) =>
          let '(s', c) := resume i (afterDetect closure photo r) s in
          (commit (match r with Fulfilled _ => true | Rejected => false end) s s',
           Some c)
      | _ => (s, None)
      end
  end.

Definition step (e : Event) (s : State) : State := fst (stepC e s).

Definition run (es : list Event) (s : State) : State :=
  foldl (fun s e => step e s) s es.

(** ** The outcome of each criterion, as a function of the face

    These restate the branches of [checkFraming], [checkEyes],
    [checkExpression] and [checkPosition]; [evaluate_face] below proves that
    [evaluate] computes exactly them. *)

Definition framingStatus (face : Face.t) (photo : Photo.t) : CheckStatus :=
  if centered face photo && goodSize face photo then pass else fail.
Definition framingDetail (face : Face.t) (photo : Photo.t) : string :=
  if centered face photo && goodSize face photo then "Perfect"%string
  else framingHint face photo.
Definition eyesStatus (face : Face.t) : CheckStatus :=
  if eyesOk face && lookingOk face then pass else fail.
Definition eyesDetail (face : Face.t) : string :=
  (if eyesOk face && lookingOk face then "Great!"
   else if negb (eyesOk face) then "Open eyes" else "Look at camera")%string.
Definition expressionStatus (face : Face.t) : CheckStatus :=
  if (EXPRESSION_THRESHOLD THRESHOLDS <? smileProb face)%float then pass else fail.
Definition expressionDetail (face : Face.t) : string :=
  (if (EXPRESSION_THRESHOLD THRESHOLDS <? smileProb face)%float
   then (if (0.5 <? smileProb face)%float then "Great energy!" else "Engaged")
   else "Smile a bit")%string.
Definition positionStatus (face : Face.t) : CheckStatus :=
  if (abs (rollAngle face) <? HEAD_ROLL_LIMIT THRESHOLDS)%float then pass else fail.
Definition positionDetail (face : Face.t) : string :=
  (if (abs (rollAngle face) <? HEAD_ROLL_LIMIT THRESHOLDS)%float
   then "Good" else "Straighten head")%string.

Definition point (st : CheckStatus) : nat := if decide (st = pass) then 1 else 0.


(** ** Concrete inputs

    The metrics of the spec's Scenario A (face centred, width ratio 0.3, no
    rotation, smile 0.6, eyes 0.9) on a 1000 x 1000 photo, and variants. *)

Definition photoA : Photo.t := Photo.mk "file:///frame.jpg" 1000 1000.

Definition faceA : Face.t :=
  Face.mk (Frame.mk 350 350 300 300)
    (Some 0%float) None (Some 0%float) None
    (Some 0.6%float) (Some 0.9%float) (Some 0.9%float).

(** The same face turned by 30 degrees, eyes wide open. *)
Definition faceTurned : Face.t :=
  Face.mk (Frame.mk 350 350 300 300)
    (Some 30%float) None (Some 0%float) None
    (Some 0.6%float) (Some 1%float) (Some 1%float).

(** The same bounding box, every optional field omitted by the detector. *)
Definition faceBare : Face.t :=
  Face.mk (Frame.mk 350 350 300 300) None None None None None None None.

(** A state in which one call of [analyzeFrame] awaits the detector: the
    check was started, the camera is ready, the start delay elapsed, the
    interval fired and the photo was taken. *)
Definition awaitingDetection : State :=
  run [StartCheck; OnCameraReady; StartDelayElapsed; IntervalTick;
       CaptureSettled 0 (Fulfilled (Some photoA))] initialState.

(** The same, one step earlier: the call awaits the camera. *)
Definition awaitingCapture : State :=
  run [StartCheck; OnCameraReady; StartDelayElapsed; IntervalTick] initialState.

(** What "the cycle is abandoned" means between the state before and after
    the resumed call: the call ended without raising, no React state changed,
    the timers are as they were, the flag is cleared and the call is gone. *)
Definition abandoned (i : nat) (s : State) (r : State * option Completion) : Prop :=
  r.2 = Some Returned
  ∧ checklist r.1 = checklist s
  ∧ passStreak r.1 = passStreak s
  ∧ allChecksPassed r.1 = allChecksPassed s
  ∧ isReady r.1 = isReady s
  ∧ timers r.1 = timers s
  ∧ isCapturing r.1 = false
  ∧ pending r.1 = delete i (pending s).

(** Events other than the two commands that begin or end a session. *)
Definition inSession (e : Event) : Prop := e ≠ StartCheck ∧ e ≠ ResetCheck.

(** ** The evaluations of a run

    An event reaches the evaluation of lines 112-188 when it delivers the
    detector's answer to a call that awaits it; [evaluated] is then the local
    [passCount] of that cycle. *)
Definition evaluated (e : Event) (s : State) : option nat :=
  match e with
  | DetectSettled i (Fulfilled faces) =>
      match pending s !! i with
      | Some (AwaitDetect closure photo) => Some (snd (evaluate closure faces photo))
      | _ => None
      end
  | _ => None
  end.

(** The [passCount]s of the evaluations of a run, in order. *)
Fixpoint passCounts (es : list Event) (s : State) : list nat :=
  match es with
  | [] => []
  | e :: es' =>
      match evaluated e s with
      | Some pc => pc :: passCounts es' (step e s)
      | None => passCounts es' (step e s)
      end
  end.

(** Number of full passes at the head of a list, and at its end. *)
Fixpoint leadingFull (pcs : list nat) : nat :=
  match pcs with
  | pc :: rest => if decide (pc = 5) then S (leadingFull rest) else 0
  | [] => 0
  end.

Definition trailingFull (pcs : list nat) : nat := leadingFull (reverse pcs).

(** Three full passes in a row somewhere in the list. *)
Definition threeInARow (pcs : list nat) : Prop :=
  ∃ before after, pcs = before ++ [5; 5; 5] ++ after.

(** The streak and the readiness against the history of pass counts. *)
Definition tracks (pcs : list nat) (streak : nat) (ready : bool) : Prop :=
  (ready = true ↔ threeInARow pcs)
  ∧ (ready = false → streak = trailingFull pcs ∧ streak < 3).

(** One undisturbed cycle: the start delay elapses, the interval fires, the
    camera and then the detector answer. *)
Definition cycle (capture : Settled (option Photo.t)) (detect : Settled (list Face.t))
  : list Event :=
  [StartDelayElapsed; IntervalTick; CaptureSettled 0 capture; DetectSettled 0 detect].

(** The session after [startCheck] and the camera's ready signal. *)
Definition sessionStart : State := run [StartCheck; OnCameraReady] initialState.

(** Scenario A of the spec: the same good face on three cycles. *)
Definition scenarioA : list Event :=
  cycle (Fulfilled (Some photoA)) (Fulfilled [faceA])
  ++ cycle (Fulfilled (Some photoA)) (Fulfilled [faceA])
  ++ cycle (Fulfilled (Some photoA)) (Fulfilled [faceA]).

(** Scenario B: no face on the first cycle, then Scenario A. *)
Definition scenarioB : list Event :=
  cycle (Fulfilled (Some photoA)) (Fulfilled []) ++ scenarioA.

(** The state Scenario A ends in: readiness reached, nothing in flight. *)
Definition readyState : State := run scenarioA sessionStart.

(** A run in which the check is never stopped while a call is in flight. *)
Fixpoint stopsWhenIdle (es : list Event) (s : State) : Prop :=
  match es with
  | [] => True
  | e :: es' => (e = ResetCheck → pending s = []) ∧ stopsWhenIdle es' (step e s)
  end.

(** At most one call in flight, flagged by [isCapturing], none once ready. *)
Definition oneInFlight (s : State) : Prop :=
  (isCapturing s = false → pending s = [])
  ∧ length (pending s) ≤ 1
  ∧ (allChecksPassed s = true → pending s = []).

(** Faces on a 1 x 1 photo whose metrics sit on the bounds of the framing
    rule: width ratio equal to the minimum, equal to the maximum, and a
    vertical offset equal to the vertical tolerance. *)
Definition photoUnit : Photo.t := Photo.mk "file:///unit.jpg" 1 1.
Definition faceMinSize : Face.t :=
  Face.mk (Frame.mk 0.425 0.4 0.15 0.2) None None None None None None None.
Definition faceMaxSize : Face.t :=
  Face.mk (Frame.mk 0.1 0.4 0.8 0.2) None None None None None None None.
Definition faceEdgeY : Face.t :=
  Face.mk (Frame.mk 0.35 (0.5 - (0.22 + 0.1)) 0.3 0)
    None None None None None None None.

(** Scenario C of the spec: width ratio 0.05. *)
Definition faceSmall : Face.t :=
  Face.mk (Frame.mk 475 475 50 50) None None None None None None None.

(** A session that follows a stop issued while a call awaited the detector:
    the check is started again and three cycles pass in full while the call
    of the first session is still suspended (it is entry 0 of [pending], the
    calls of the new session are entry 1). *)
Definition cycleBehind (capture : Settled (option Photo.t))
    (detect : Settled (list Face.t)) : list Event :=
  [StartDelayElapsed; IntervalTick; CaptureSettled 1 capture; DetectSettled 1 detect].

Definition readyWithStaleCall : State :=
  run ([ResetCheck; StartCheck]
       ++ cycleBehind (Fulfilled (Some photoA)) (Fulfilled [faceA])
       ++ cycleBehind (Fulfilled (Some photoA)) (Fulfilled [faceA])
       ++ cycleBehind (Fulfilled (Some photoA)) (Fulfilled [faceA]))
    awaitingDetection.

(** ** Shape of the checklist

    The five entries of the array literal, recognised by their ids, labels
    and icons in order, each with some status and some detail. *)
Definition wellFormed (arr : list ChecklistItem) : Prop :=
  map Item.id arr = map Item.id initialChecklist
  ∧ map Item.label arr = map Item.label initialChecklist
  ∧ map Item.icon arr = map Item.icon initialChecklist
  ∧ Forall (λ it, is_Some (Item.status it) ∧ is_Some (Item.detail it)) arr.

(** The checklist a suspended call captured. *)
Definition closureOf (k : Suspended) : list ChecklistItem :=
  match k with
  | AwaitCapture closure => closure
  | AwaitDetect closure _ => closure
  end.

(** A face whose roll is beyond the limit, and one that does not smile. *)
Definition faceTilted : Face.t :=
  Face.mk (Frame.mk 350 350 300 300)
    (Some 0%float) None (Some (-20)%float) (Some 0%float)
    (Some 0.6%float) (Some 0.9%float) (Some 0.9%float).

Definition faceSerious : Face.t :=
  Face.mk (Frame.mk 350 350 300 300)
    (Some 0%float) None (Some 0%float) None
    (Some 0.05%float) (Some 0.9%float) (Some 0.9%float).

(** A face to the left of the frame, and one too close to the camera. *)
Definition faceLeft : Face.t :=
  Face.mk (Frame.mk 0 350 300 300) None None None None None None None.

Definition faceClose : Face.t :=
  Face.mk (Frame.mk 50 350 900 300) None None None None None None None.


(** ** Phases of the sampling loop *)

(** The check is running: started, camera ready, not yet all passed; this is
    the condition under which the effect of lines 199-214 arms its timers. *)
Definition running (s : State) : Prop :=
  isReady s = true ∧ cameraReady s = true ∧ allChecksPassed s = false.

(** Running with the camera mounted, a timer armed and no call in flight. *)
Definition sampling (s : State) : Prop :=
  running s ∧ cameraRef s = true ∧ isCapturing s = false
  ∧ pending s = [] ∧ timers s ≠ NoTimer.

(** Every checklist the program holds has the five entries: the one in the
    state and the ones captured by suspended calls. *)
Definition checklistsWellFormed (s : State) : Prop :=
  wellFormed (checklist s) ∧ Forall (λ k, wellFormed (closureOf k)) (pending s).

(** The timers are armed only while the check is running. *)
Definition timersWhileRunning (s : State) : Prop :=
  timers s ≠ NoTimer → running s.

(** A photo with a uri and faces that pass all five criteria on it. *)
Definition fullPass (p : Photo.t) (faces : list Face.t) : Prop :=
  noUri (Some p) = false ∧ snd (evaluate initialChecklist faces p) = 5.

(** The events that lead to [readyWithStaleCall] from the first render. *)
Definition staleSession : list Event :=
  [StartCheck; OnCameraReady; StartDelayElapsed; IntervalTick;
   CaptureSettled 0 (Fulfilled (Some photoA)); ResetCheck; StartCheck]
  ++ cycleBehind (Fulfilled (Some photoA)) (Fulfilled [faceA])
  ++ cycleBehind (Fulfilled (Some photoA)) (Fulfilled [faceA])
  ++ cycleBehind (Fulfilled (Some photoA)) (Fulfilled [faceA]).

(** The streak as the interface shows it ("Hold... n/3"): at most 3, and 3
    exactly when readiness is reached. *)
Definition streakWithinThree (s : State) : Prop :=
  passStreak s ≤ 3 ∧ (allChecksPassed s = true ↔ passStreak s = 3).

(** The state of a check that is not started. *)
Definition idle (s : State) : Prop :=
  checklist s = initialChecklist ∧ passStreak s = 0
  ∧ allChecksPassed s = false ∧ timers s = NoTimer
  ∧ pending s = [] ∧ isCapturing s = false.

(** A cycle that does not reach the evaluation: the capture throws, or
    returns no usable photo, or the detection throws. *)
Definition cycleFails (capture : Settled (option Photo.t))
    (detect : Settled (list Face.t)) : Prop :=
  capture = Rejected
  ∨ (∃ photo, capture = Fulfilled photo ∧ noUri photo = true)
  ∨ (∃ p, capture = Fulfilled (Some p) ∧ noUri (Some p) = false
          ∧ detect = Rejected).
(** ** Events that leave a suspended call alone

    The suspended calls are addressed by position.  An event leaves the call
    at position [i] where it is when it settles neither that call nor an
    older one (whose removal would shift it): every command, every timer
    event, and the answers addressed to younger calls. *)
Definition leavesCall (i : nat) (e : Event) : Prop :=
  match e with
  | CaptureSettled j _ | DetectSettled j _ => i < j
  | _ => True
  end.

(** A second session begun after the stop, with two full cycles, while the
    call of the first session is still suspended at position 0. *)
Definition laterSession : list Event :=
  [StartCheck]
  ++ cycleBehind (Fulfilled (Some photoA)) (Fulfilled [faceA])
  ++ cycleBehind (Fulfilled (Some photoA)) (Fulfilled [faceA]).

(** * Properties *)

(** ** Array reads after array writes *)

Lemma getItem_setItem_eq (i : nat) (v : ChecklistItem) (arr : list ChecklistItem) :
  getItem (setItem i v arr) i = v.
Proof.
  unfold getItem, setItem. case_decide as Hi.
  - by rewrite list_lookup_insert_eq.
  - rewrite lookup_app_r by lia.
    rewrite lookup_app_r by (rewrite length_replicate; lia).
    rewrite length_replicate.
    by replace (i - length arr - (i - length arr)) with 0 by lia.
Qed.

Lemma getItem_setItem_ne (i j : nat) (v : ChecklistItem) (arr : list ChecklistItem) :
  i ≠ j → getItem (setItem i v arr) j = getItem arr j.
Proof.
  intros Hij. unfold getItem, setItem. case_decide as Hi.
  - by rewrite list_lookup_insert_ne.
  - destruct (decide (j < length arr)) as [Hj|Hj].
    + by rewrite lookup_app_l.
    + rewrite (lookup_ge_None_2 arr j) by lia.
      rewrite lookup_app_r by lia.
      destruct (decide (j - length arr < i - length arr)) as [Hlt|Hge].
      * rewrite lookup_app_l by (rewrite length_replicate; lia).
        by rewrite lookup_replicate_2.
      * rewrite lookup_app_r by (rewrite length_replicate; lia).
        rewrite length_replicate.
        destruct (j - length arr - (i - length arr)) as [|k] eqn:Hk; [lia|done].
Qed.

Lemma length_setItem (i : nat) (v : ChecklistItem) (arr : list ChecklistItem) :
  length (setItem i v arr) = length arr `max` S i.
Proof.
  unfold setItem. case_decide.
  - rewrite length_insert. lia.
  - rewrite !length_app, length_replicate. simpl. lia.
Qed.

Lemma statusAt_assign (i j : nat) st dt (arr : list ChecklistItem) :
  statusAt (assign i st dt arr) j = if decide (i = j) then Some st else statusAt arr j.
Proof.
  unfold statusAt, assign. case_decide as Hij.
  - subst. by rewrite getItem_setItem_eq.
  - by rewrite getItem_setItem_ne.
Qed.

Lemma detailAt_assign (i j : nat) st dt (arr : list ChecklistItem) :
  detailAt (assign i st dt arr) j = if decide (i = j) then Some dt else detailAt arr j.
Proof.
  unfold detailAt, assign. case_decide as Hij.
  - subst. by rewrite getItem_setItem_eq.
  - by rewrite getItem_setItem_ne.
Qed.

Lemma length_assign (i : nat) st dt (arr : list ChecklistItem) :
  length (assign i st dt arr) = length arr `max` S i.
Proof. apply length_setItem. Qed.

(** ** The evaluator, criterion by criterion *)

Lemma evaluate_face cl face rest photo :
  evaluate cl (face :: rest) photo =
  (assign 4 (positionStatus face) (positionDetail face)
     (assign 3 (expressionStatus face) (expressionDetail face)
        (assign 2 (eyesStatus face) (eyesDetail face)
           (assign 1 (framingStatus face photo) (framingDetail face photo)
              (assign 0 pass "Visible" cl)))),
   1 + point (framingStatus face photo) + point (eyesStatus face)
   + point (expressionStatus face) + point (positionStatus face)).
Proof.
  unfold evaluate, checkFace, checkFraming, checkEyes, checkExpression,
    checkPosition, framingStatus, framingDetail, eyesStatus, eyesDetail,
    expressionStatus, expressionDetail, positionStatus, positionDetail.
  destruct (centered face photo && goodSize face photo),
    (eyesOk face && lookingOk face),
    (EXPRESSION_THRESHOLD THRESHOLDS <? smileProb face)%float,
    (abs (rollAngle face) <? HEAD_ROLL_LIMIT THRESHOLDS)%float; reflexivity.
Qed.

Lemma evaluate_noFace cl photo :
  evaluate cl [] photo =
  (assign 4 checking "Need face"
     (assign 3 checking "Need face"
        (assign 2 checking "Need face"
           (assign 1 checking "Need face"
              (assign 0 fail "Not found" cl)))), 0).
Proof. reflexivity. Qed.

(** The local [passCount] does not depend on the checklist of the closure. *)
Lemma passCount_closure cl cl' faces photo :
  snd (evaluate cl faces photo) = snd (evaluate cl' faces photo).
Proof. destruct faces; [done|]. by rewrite !evaluate_face. Qed.

Lemma passCount_le_5 cl faces photo : snd (evaluate cl faces photo) ≤ 5.
Proof.
  destruct faces as [|face rest]; [simpl; lia|]. rewrite evaluate_face. simpl.
  unfold point. repeat case_decide; lia.
Qed.

(** The checklist always gets five entries, whatever it held. *)
Lemma length_evaluate cl faces photo :
  length (fst (evaluate cl faces photo)) = length cl `max` 5.
Proof.
  destruct faces as [|face rest].
  - rewrite evaluate_noFace. simpl. rewrite !length_assign. lia.
  - rewrite evaluate_face. simpl. rewrite !length_assign. lia.
Qed.

(** ** Comparisons of binary64 numbers *)

Lemma SFcompare_swap x y : SFcompare y x = option_map CompOpp (SFcompare x y).
Proof.
  destruct x as [sx|sx| |sx mx ex], y as [sy|sy| |sy my ey]; simpl;
    try reflexivity;
    try (destruct sx; reflexivity); try (destruct sy; reflexivity);
    try (destruct sx, sy; reflexivity).
  change (Pos.compare_cont Eq my mx) with (my ?= mx)%positive.
  change (Pos.compare_cont Eq mx my) with (mx ?= my)%positive.
  rewrite (Z.compare_antisym ex ey), (Pos.compare_antisym mx my).
  destruct sx, sy; simpl; try reflexivity;
    destruct (ex ?= ey)%Z; simpl; try reflexivity;
    destruct (mx ?= my)%positive; reflexivity.
Qed.

(** [y >= x] excludes [y < x] (neither holds when one side is NaN). *)
Lemma leb_true_ltb_false (x y : float) :
  (x <=? y)%float = true → (y <? x)%float = false.
Proof.
  rewrite leb_spec, ltb_spec. unfold SFleb, SFltb.
  rewrite (SFcompare_swap (Prim2SF x) (Prim2SF y)).
  destruct (SFcompare (Prim2SF x) (Prim2SF y)) as [[]|]; simpl; congruence.
Qed.

#[local] Arguments evaluate : simpl never.

(** ** Criteria *)

Lemma statusAt_evaluate_face cl face rest photo :
  let res := fst (evaluate cl (face :: rest) photo) in
  statusAt res 0 = Some pass
  ∧ statusAt res 1 = Some (framingStatus face photo)
  ∧ statusAt res 2 = Some (eyesStatus face)
  ∧ statusAt res 3 = Some (expressionStatus face)
  ∧ statusAt res 4 = Some (positionStatus face).
Proof.
  cbv zeta. rewrite evaluate_face. simpl. rewrite !statusAt_assign. simpl. done.
Qed.

Lemma detailAt_evaluate_face cl face rest photo :
  let res := fst (evaluate cl (face :: rest) photo) in
  detailAt res 0 = Some "Visible"%string
  ∧ detailAt res 1 = Some (framingDetail face photo)
  ∧ detailAt res 2 = Some (eyesDetail face)
  ∧ detailAt res 3 = Some (expressionDetail face)
  ∧ detailAt res 4 = Some (positionDetail face).
Proof.
  cbv zeta. rewrite evaluate_face. simpl. rewrite !detailAt_assign. simpl. done.
Qed.

Lemma statusAt_evaluate_noFace cl photo :
  let res := fst (evaluate cl [] photo) in
  statusAt res 0 = Some fail
  ∧ statusAt res 1 = Some checking ∧ statusAt res 2 = Some checking
  ∧ statusAt res 3 = Some checking ∧ statusAt res 4 = Some checking.
Proof.
  cbv zeta. rewrite evaluate_noFace. simpl. rewrite !statusAt_assign. simpl. done.
Qed.

(** C5.  With a face present, the framing criterion passes exactly when the
    horizontal offset of the face centre is strictly below the centre
    tolerance, the vertical offset strictly below the tolerance plus 0.1, and
    the width ratio lies between the minimum and maximum face size, bounds
    included; otherwise it fails. *)
Theorem framing_pass_iff cl face rest photo :
  let res := fst (evaluate cl (face :: rest) photo) in
  (statusAt res 1 = Some pass ↔
     (abs (faceCenterX face photo - 0.5) <? CENTER_TOLERANCE THRESHOLDS)%float = true
     ∧ (abs (faceCenterY face photo - 0.5) <? CENTER_TOLERANCE THRESHOLDS + 0.1)%float = true
     ∧ (MIN_FACE_SIZE THRESHOLDS <=? faceWidthRatio face photo)%float = true
     ∧ (faceWidthRatio face photo <=? MAX_FACE_SIZE THRESHOLDS)%float = true)
  ∧ (statusAt res 1 = Some pass ∨ statusAt res 1 = Some fail).
Proof.
  cbv zeta.
  destruct (statusAt_evaluate_face cl face rest photo) as (_ & -> & _).
  unfold framingStatus, centered, goodSize, offX, offY.
  destruct (abs (faceCenterX face photo - 0.5) <? _)%float,
    (abs (faceCenterY face photo - 0.5) <? _)%float,
    (_ <=? faceWidthRatio face photo)%float,
    (faceWidthRatio face photo <=? _)%float; simpl;
    (split; [split; [intros; repeat split; congruence | intros (?&?&?&?); congruence] | auto]).
Qed.

Lemma framing_pass_iff_witness :
  statusAt (fst (evaluate initialChecklist [faceA] photoA)) 1 = Some pass.
Proof.
  apply (proj1 (framing_pass_iff initialChecklist faceA [] photoA)).
  vm_compute. repeat split; reflexivity.
Defined.

(** The bounds of the framing rule on concrete faces: a width ratio equal to
    the minimum or to the maximum passes; a vertical offset equal to the
    vertical tolerance fails; the vertical tolerance is the number 0.32. *)
Example framing_bounds :
  faceWidthRatio faceMinSize photoUnit = MIN_FACE_SIZE THRESHOLDS
  ∧ framingStatus faceMinSize photoUnit = pass
  ∧ faceWidthRatio faceMaxSize photoUnit = MAX_FACE_SIZE THRESHOLDS
  ∧ framingStatus faceMaxSize photoUnit = pass
  ∧ offY faceEdgeY photoUnit = (CENTER_TOLERANCE THRESHOLDS + 0.1)%float
  ∧ offX faceEdgeY photoUnit = 0%float
  ∧ goodSize faceEdgeY photoUnit = true
  ∧ framingStatus faceEdgeY photoUnit = fail
  ∧ (CENTER_TOLERANCE THRESHOLDS + 0.1)%float = 0.32%float.
Proof. vm_compute. repeat split; reflexivity. Qed.

(** Scenario C of the spec: a face too small fails framing with the hint
    "Move closer". *)
Example scenarioC_move_closer :
  let res := fst (evaluate initialChecklist [faceSmall] photoA) in
  statusAt res 1 = Some fail ∧ detailAt res 1 = Some "Move closer"%string.
Proof. vm_compute. split; reflexivity. Qed.

(** C6.  With a face present: a yaw of absolute value at least the yaw limit
    fails eye contact whatever the eye-open values; eye contact passes exactly
    when both eye-open values exceed the threshold and the absolute yaw is
    below the limit; and when it does not pass it fails, with the eyes-closed
    hint if the eye condition failed and the look-at-camera hint otherwise. *)
Theorem eyeContact_rules cl face rest photo :
  let res := fst (evaluate cl (face :: rest) photo) in
  let eyes := ((EYE_OPEN_THRESHOLD THRESHOLDS <? leftEyeOpen face)
               && (EYE_OPEN_THRESHOLD THRESHOLDS <? rightEyeOpen face))%float in
  ((HEAD_YAW_LIMIT THRESHOLDS <=? abs (yawAngle face))%float = true →
     statusAt res 2 = Some fail)
  ∧ (statusAt res 2 = Some pass ↔
       (EYE_OPEN_THRESHOLD THRESHOLDS <? leftEyeOpen face)%float = true
       ∧ (EYE_OPEN_THRESHOLD THRESHOLDS <? rightEyeOpen face)%float = true
       ∧ (abs (yawAngle face) <? HEAD_YAW_LIMIT THRESHOLDS)%float = true)
  ∧ (statusAt res 2 ≠ Some pass →
       statusAt res 2 = Some fail
       ∧ detailAt res 2 = Some (if eyes then "Look at camera" else "Open eyes")%string).
Proof.
  cbv zeta.
  destruct (statusAt_evaluate_face cl face rest photo) as (_ & _ & -> & _).
  destruct (detailAt_evaluate_face cl face rest photo) as (_ & _ & -> & _).
  unfold eyesStatus, eyesDetail, eyesOk, lookingOk. simpl.
  split; [|split].
  - intros Hyaw. rewrite (leb_true_ltb_false _ _ Hyaw), andb_false_r. done.
  - destruct (_ <? leftEyeOpen face)%float, (_ <? rightEyeOpen face)%float,
      (abs (yawAngle face) <? _)%float; simpl;
      (split; [intros; repeat split; congruence | intros (?&?&?); congruence]).
  - destruct (_ <? leftEyeOpen face)%float, (_ <? rightEyeOpen face)%float,
      (abs (yawAngle face) <? _)%float; simpl; intros; split; congruence.
Qed.

Lemma eyeContact_rules_witness :
  (HEAD_YAW_LIMIT THRESHOLDS <=? abs (yawAngle faceTurned))%float = true
  ∧ statusAt (fst (evaluate initialChecklist [faceTurned] photoA)) 2 = Some fail.
Proof.
  split; [vm_compute; reflexivity|].
  apply (proj1 (eyeContact_rules initialChecklist faceTurned [] photoA)).
  vm_compute; reflexivity.
Defined.

(** C10.  When the detector omits the smile probability it defaults to 0, so
    the expression criterion fails with the hint "Smile a bit"; omitted yaw
    and roll default to 0 and omitted eye-open values to 0.8, which is above
    the eye-open threshold. *)
Theorem missing_smile_fails_expression cl face rest photo :
  Face.smilingProbability face = None →
  let res := fst (evaluate cl (face :: rest) photo) in
  smileProb face = 0%float
  ∧ statusAt res 3 = Some fail
  ∧ detailAt res 3 = Some "Smile a bit"%string
  ∧ (Face.headEulerAngleY face = None → Face.yawAngle face = None →
       yawAngle face = 0%float)
  ∧ (Face.headEulerAngleZ face = None → Face.rollAngle face = None →
       rollAngle face = 0%float)
  ∧ (Face.leftEyeOpenProbability face = None →
       leftEyeOpen face = 0.8%float
       ∧ (EYE_OPEN_THRESHOLD THRESHOLDS <? leftEyeOpen face)%float = true)
  ∧ (Face.rightEyeOpenProbability face = None →
       rightEyeOpen face = 0.8%float
       ∧ (EYE_OPEN_THRESHOLD THRESHOLDS <? rightEyeOpen face)%float = true).
Proof.
  intros Hsmile. cbv zeta.
  destruct (statusAt_evaluate_face cl face rest photo) as (_ & _ & _ & -> & _).
  destruct (detailAt_evaluate_face cl face rest photo) as (_ & _ & _ & -> & _).
  unfold expressionStatus, expressionDetail, smileProb, yawAngle, rollAngle,
    leftEyeOpen, rightEyeOpen.
  rewrite Hsmile. simpl.
  split; [reflexivity|]. split; [reflexivity|]. split; [reflexivity|].
  split; [by intros -> ->|]. split; [by intros -> ->|].
  split; intros ->; split; reflexivity.
Qed.

Lemma missing_smile_fails_expression_witness :
  statusAt (fst (evaluate initialChecklist [faceBare] photoA)) 3 = Some fail
  ∧ detailAt (fst (evaluate initialChecklist [faceBare] photoA)) 3
    = Some "Smile a bit"%string.
Proof.
  pose proof (missing_smile_fails_expression initialChecklist faceBare [] photoA
                eq_refl) as H.
  split; [exact (proj1 (proj2 H)) | exact (proj1 (proj2 (proj2 H)))].
Defined.

(** ** What the state setters leave alone *)

Lemma updateStreak_passStreak pc s :
  passStreak (updateStreak pc s) = if decide (pc = 5) then passStreak s + 1 else 0.
Proof. unfold updateStreak. repeat case_decide; reflexivity. Qed.

Lemma updateStreak_allChecksPassed pc s :
  allChecksPassed (updateStreak pc s) =
  allChecksPassed s || (bool_decide (pc = 5) && bool_decide (2 ≤ passStreak s)).
Proof.
  unfold updateStreak. repeat case_bool_decide; repeat case_decide;
    simpl; try lia; by rewrite ?orb_false_r, ?orb_true_r.
Qed.

Lemma updateStreak_others pc s :
  isReady (updateStreak pc s) = isReady s
  ∧ cameraReady (updateStreak pc s) = cameraReady s
  ∧ checklist (updateStreak pc s) = checklist s
  ∧ cameraRef (updateStreak pc s) = cameraRef s
  ∧ isCapturing (updateStreak pc s) = isCapturing s
  ∧ timers (updateStreak pc s) = timers s
  ∧ pending (updateStreak pc s) = pending s
  ∧ console (updateStreak pc s) = console s.
Proof. unfold updateStreak. repeat case_decide; done. Qed.

Lemma samplingEffect_others s :
  isReady (samplingEffect s) = isReady s
  ∧ cameraReady (samplingEffect s) = cameraReady s
  ∧ allChecksPassed (samplingEffect s) = allChecksPassed s
  ∧ passStreak (samplingEffect s) = passStreak s
  ∧ checklist (samplingEffect s) = checklist s
  ∧ cameraRef (samplingEffect s) = cameraRef s
  ∧ isCapturing (samplingEffect s) = isCapturing s
  ∧ pending (samplingEffect s) = pending s
  ∧ console (samplingEffect s) = console s.
Proof. unfold samplingEffect. destruct (_ && _); done. Qed.

Lemma commit_others b old new :
  isReady (commit b old new) = isReady new
  ∧ cameraReady (commit b old new) = cameraReady new
  ∧ allChecksPassed (commit b old new) = allChecksPassed new
  ∧ passStreak (commit b old new) = passStreak new
  ∧ checklist (commit b old new) = checklist new
  ∧ cameraRef (commit b old new) = cameraRef new
  ∧ isCapturing (commit b old new) = isCapturing new
  ∧ pending (commit b old new) = pending new
  ∧ console (commit b old new) = console new.
Proof.
  unfold commit. destruct (_ || _); [apply samplingEffect_others | done].
Qed.

(** A handler that changes none of the effect's dependencies and builds no
    new checklist is followed by no effect. *)
Lemma commit_same old new :
  isReady new = isReady old → cameraReady new = cameraReady old →
  allChecksPassed new = allChecksPassed old → commit false old new = new.
Proof.
  intros H1 H2 H3. unfold commit. rewrite H1, H2, H3.
  by destruct (isReady old), (cameraReady old), (allChecksPassed old).
Qed.

(** ** Resuming a suspended call *)

(** The detector answered: the result is evaluated against the checklist of
    the closure and written to the state; nothing else is consulted. *)
Lemma stepC_detect_fulfilled s i cl photo faces :
  pending s !! i = Some (AwaitDetect cl photo) →
  stepC (DetectSettled i (Fulfilled faces)) s =
  (samplingEffect
     (setPending (delete i (pending s))
        (setIsCapturing false
           (updateStreak (snd (evaluate cl faces photo))
              (setChecklist (fst (evaluate cl faces photo)) s)))),
   Some Returned).
Proof.
  intros Hp. unfold stepC. rewrite Hp.
  unfold resume, tryCatchFinally, afterDetect.
  destruct (evaluate cl faces photo) as [nc pc]. simpl.
  destruct (updateStreak_others pc (setChecklist nc s)) as (_&_&_&_&_&_&->&_).
  reflexivity.
Qed.

(** The detector failed: the error is caught and logged, the flag cleared. *)
Lemma stepC_detect_rejected s i cl photo :
  pending s !! i = Some (AwaitDetect cl photo) →
  stepC (DetectSettled i Rejected) s =
  (setPending (delete i (pending s))
     (setIsCapturing false (consoleLog "Capture skipped" s)),
   Some Returned).
Proof.
  intros Hp. unfold stepC. rewrite Hp.
  unfold resume, tryCatchFinally, afterDetect. simpl.
  by rewrite commit_same.
Qed.

Lemma stepC_capture_rejected s i cl :
  pending s !! i = Some (AwaitCapture cl) →
  stepC (CaptureSettled i Rejected) s =
  (setPending (delete i (pending s))
     (setIsCapturing false (consoleLog "Capture skipped" s)),
   Some Returned).
Proof.
  intros Hp. unfold stepC. rewrite Hp.
  unfold resume, tryCatchFinally, afterCapture. simpl.
  by rewrite commit_same.
Qed.

Lemma stepC_capture_noUri s i cl photo :
  pending s !! i = Some (AwaitCapture cl) → noUri photo = true →
  stepC (CaptureSettled i (Fulfilled photo)) s =
  (setPending (delete i (pending s)) (setIsCapturing false s), Some Returned).
Proof.
  intros Hp Hu. unfold stepC. rewrite Hp.
  unfold resume, tryCatchFinally, afterCapture. rewrite Hu. simpl.
  by rewrite commit_same.
Qed.

Lemma stepC_capture_photo s i cl p :
  pending s !! i = Some (AwaitCapture cl) → noUri (Some p) = false →
  stepC (CaptureSettled i (Fulfilled (Some p))) s =
  (setPending (<[i := AwaitDetect cl p]> (pending s)) s,
   Some (Awaiting (AwaitDetect cl p))).
Proof.
  intros Hp Hu. unfold stepC. rewrite Hp.
  unfold resume, tryCatchFinally, afterCapture. rewrite Hu. simpl.
  by rewrite commit_same.
Qed.

(** The fields of the state after the detector answered. *)
Lemma step_detect_fulfilled_fields s i cl photo faces :
  pending s !! i = Some (AwaitDetect cl photo) →
  let s' := step (DetectSettled i (Fulfilled faces)) s in
  let pc := snd (evaluate cl faces photo) in
  checklist s' = fst (evaluate cl faces photo)
  ∧ passStreak s' = (if decide (pc = 5) then passStreak s + 1 else 0)
  ∧ allChecksPassed s' =
      allChecksPassed s || (bool_decide (pc = 5) && bool_decide (2 ≤ passStreak s))
  ∧ isCapturing s' = false
  ∧ pending s' = delete i (pending s)
  ∧ isReady s' = isReady s
  ∧ cameraReady s' = cameraReady s
  ∧ cameraRef s' = cameraRef s.
Proof.
  intros Hp. cbv zeta. unfold step.
  rewrite (stepC_detect_fulfilled _ _ _ _ _ Hp). cbn [fst].
  match goal with |- context [samplingEffect ?x] =>
    destruct (samplingEffect_others x) as (-> & -> & -> & -> & -> & -> & -> & -> & _)
  end.
  cbn [checklist passStreak allChecksPassed isCapturing pending isReady
       cameraReady cameraRef setPending setIsCapturing].
  rewrite updateStreak_passStreak, updateStreak_allChecksPassed.
  match goal with |- context [updateStreak ?pc ?x] =>
    destruct (updateStreak_others pc x) as (-> & -> & -> & -> & _)
  end.
  done.
Qed.

Lemma take5_statuses (arr : list ChecklistItem) :
  5 ≤ length arr →
  map Item.status (take 5 arr) =
  [statusAt arr 0; statusAt arr 1; statusAt arr 2; statusAt arr 3; statusAt arr 4].
Proof.
  intros Hlen.
  destruct arr as [|a0 [|a1 [|a2 [|a3 [|a4 arr]]]]]; simpl in Hlen; try lia.
  reflexivity.
Qed.

(** ** The face criterion *)

(** C2, as amended.  Whatever the state, when the detector answers, the face
    criterion is set to pass exactly when it returned at least one face (the
    first one is used), and to fail exactly when it returned none. *)
Theorem face_pass_iff_some_face s i cl photo faces :
  pending s !! i = Some (AwaitDetect cl photo) →
  let s' := step (DetectSettled i (Fulfilled faces)) s in
  (statusAt (checklist s') 0 = Some pass ↔ 0 < length faces)
  ∧ (statusAt (checklist s') 0 = Some fail ↔ faces = []).
Proof.
  intros Hp. cbv zeta.
  destruct (step_detect_fulfilled_fields s i cl photo faces Hp) as (-> & _).
  destruct faces as [|face rest].
  - destruct (statusAt_evaluate_noFace cl photo) as (-> & _). simpl.
    split; split; try done; lia.
  - destruct (statusAt_evaluate_face cl face rest photo) as (-> & _). simpl.
    split; split; try done; lia.
Qed.

Lemma face_pass_iff_some_face_witness :
  statusAt (checklist (step (DetectSettled 0 (Fulfilled [faceA; faceTurned]))
                         awaitingDetection)) 0 = Some pass.
Proof.
  apply (proj1 (face_pass_iff_some_face awaitingDetection 0 initialChecklist
                  photoA [faceA; faceTurned] eq_refl)).
  simpl. lia.
Defined.

(** C2 as stated fails: with two faces returned the face criterion is set to
    pass, although the detector did not return exactly one face. *)
Lemma face_pass_two_faces_counterexample :
  let faces := [faceA; faceTurned] in
  let s' := step (DetectSettled 0 (Fulfilled faces)) awaitingDetection in
  pending awaitingDetection !! 0 = Some (AwaitDetect initialChecklist photoA)
  ∧ ¬ (statusAt (checklist s') 0 = Some pass ↔ length faces = 1).
Proof.
  split; [reflexivity|].
  intros [H _]. specialize (H eq_refl). discriminate H.
Qed.

(** ** No face *)

(** C4.  When the detector succeeds and returns no face, whatever the state
    and the checklist held before: the first criterion is fail, the other four
    are checking, and the streak is 0. *)
Theorem no_face_fail_then_checking s i cl photo :
  pending s !! i = Some (AwaitDetect cl photo) →
  let s' := step (DetectSettled i (Fulfilled [])) s in
  map Item.status (take 5 (checklist s'))
    = [Some fail; Some checking; Some checking; Some checking; Some checking]
  ∧ length (checklist s') = length cl `max` 5
  ∧ passStreak s' = 0.
Proof.
  intros Hp. cbv zeta.
  destruct (step_detect_fulfilled_fields s i cl photo [] Hp) as (-> & -> & _).
  pose proof (length_evaluate cl [] photo) as Hlen.
  split; [|split].
  - rewrite take5_statuses by lia.
    destruct (statusAt_evaluate_noFace cl photo) as (-> & -> & -> & -> & ->).
    reflexivity.
  - exact Hlen.
  - reflexivity.
Qed.

Lemma no_face_fail_then_checking_witness :
  map Item.status (checklist (step (DetectSettled 0 (Fulfilled [])) awaitingDetection))
    = [Some fail; Some checking; Some checking; Some checking; Some checking]
  ∧ passStreak (step (DetectSettled 0 (Fulfilled [])) awaitingDetection) = 0.
Proof.
  destruct (no_face_fail_then_checking awaitingDetection 0 initialChecklist photoA
              eq_refl) as (H1 & H2 & H3).
  split; [|exact H3].
  rewrite <- H1, take_ge; [reflexivity | rewrite H2; simpl; lia].
Defined.

(** ** Failed capture, failed detection *)

(** C7.  When the capture returns no usable photo or throws, or the
    detection throws, the call ends normally (the error is caught), with the
    checklist, the streak, the readiness flags and the timers as they were;
    the in-flight flag is cleared and the call is over. *)
Theorem failed_cycle_abandoned s i cl :
  (pending s !! i = Some (AwaitCapture cl) →
     abandoned i s (stepC (CaptureSettled i Rejected) s)
     ∧ ∀ photo, noUri photo = true →
         abandoned i s (stepC (CaptureSettled i (Fulfilled photo)) s))
  ∧ (∀ photo, pending s !! i = Some (AwaitDetect cl photo) →
       abandoned i s (stepC (DetectSettled i Rejected) s)).
Proof.
  split.
  - intros Hp. split.
    + rewrite (stepC_capture_rejected _ _ _ Hp). by repeat split.
    + intros photo Hu. rewrite (stepC_capture_noUri _ _ _ _ Hp Hu).
      by repeat split.
  - intros photo Hp. rewrite (stepC_detect_rejected _ _ _ _ Hp).
    by repeat split.
Qed.

Lemma failed_cycle_abandoned_witness :
  abandoned 0 awaitingCapture (stepC (CaptureSettled 0 Rejected) awaitingCapture)
  ∧ abandoned 0 awaitingCapture
      (stepC (CaptureSettled 0 (Fulfilled None)) awaitingCapture)
  ∧ abandoned 0 awaitingDetection
      (stepC (DetectSettled 0 Rejected) awaitingDetection).
Proof.
  pose proof (proj1 (failed_cycle_abandoned awaitingCapture 0 initialChecklist)
                eq_refl) as [H1 H2].
  pose proof (proj2 (failed_cycle_abandoned awaitingDetection 0 initialChecklist)
                photoA eq_refl) as H3.
  split; [exact H1 | split; [exact (H2 None eq_refl) | exact H3]].
Defined.

(** ** Triggers while a call is in flight *)

(** C8.  When the interval fires while the in-flight flag is set, the call of
    [analyzeFrame] returns at its guard: the whole state, including the list
    of suspended calls, is unchanged, so no capture starts and nothing is
    kept for later. *)
Theorem tick_in_flight_is_noop s :
  isCapturing s = true →
  analyzeFrame s = s ∧ stepC IntervalTick s = (s, None).
Proof.
  intros Hc.
  assert (analyzeFrame s = s) as Ha.
  { unfold analyzeFrame. rewrite Hc. by rewrite orb_true_r. }
  split; [exact Ha|]. unfold stepC. rewrite Ha. by destruct (timers s).
Qed.

Lemma tick_in_flight_is_noop_witness :
  isCapturing awaitingDetection = true
  ∧ timers awaitingDetection = Interval
  ∧ step IntervalTick awaitingDetection = awaitingDetection.
Proof.
  split; [reflexivity|]. split; [reflexivity|].
  unfold step.
  by rewrite (proj2 (tick_in_flight_is_noop awaitingDetection eq_refl)).
Defined.

(** ** Stop while a call is in flight *)

Lemma step_reset_fields s :
  let s1 := step ResetCheck s in
  isReady s1 = false ∧ allChecksPassed s1 = false ∧ passStreak s1 = 0
  ∧ isCapturing s1 = false ∧ timers s1 = NoTimer
  ∧ checklist s1 = initialChecklist
  ∧ pending s1 = pending s
  ∧ cameraReady s1 = cameraReady s ∧ cameraRef s1 = cameraRef s.
Proof.
  cbv zeta. destruct s as [? ? ? ? ? ? ? t ? ?]. by destruct t.
Qed.

(** No event other than its own answers, or the removal of an older call,
    moves or removes a suspended call. *)
Lemma step_leaves_call s e i k :
  pending s !! i = Some k → leavesCall i e → pending (step e s) !! i = Some k.
Proof.
  intros Hk He.
  destruct e as [| | | | |j r|j r].
  - unfold step, stepC; cbn [fst].
    by destruct (commit_others false s (startCheck s))
      as (_ & _ & _ & _ & _ & _ & _ & -> & _).
  - by destruct (step_reset_fields s) as (_ & _ & _ & _ & _ & _ & -> & _).
  - unfold step, stepC; cbn [fst].
    by destruct (commit_others false s (onCameraReady s))
      as (_ & _ & _ & _ & _ & _ & _ & -> & _).
  - unfold step, stepC; cbn [fst]. by destruct (timers s).
  - unfold step, stepC; cbn [fst]. destruct (timers s); try done.
    unfold analyzeFrame. destruct (_ || _); [done|]. simpl.
    rewrite lookup_app_l; [done|]. by eapply lookup_lt_Some.
  - simpl in He. unfold step.
    destruct (pending s !! j) as [[cl|cl p]|] eqn:Hj;
      try (unfold stepC; rewrite Hj; done).
    destruct r as [[p|]|].
    + destruct (noUri (Some p)) eqn:Hu.
      * rewrite (stepC_capture_noUri _ _ _ _ Hj Hu). simpl.
        by rewrite list_lookup_delete_lt.
      * rewrite (stepC_capture_photo _ _ _ _ Hj Hu). simpl.
        rewrite list_lookup_insert_ne; [done|lia].
    + rewrite (stepC_capture_noUri _ _ _ None Hj eq_refl). simpl.
      by rewrite list_lookup_delete_lt.
    + rewrite (stepC_capture_rejected _ _ _ Hj). simpl.
      by rewrite list_lookup_delete_lt.
  - simpl in He.
    destruct (pending s !! j) as [[cl|cl p]|] eqn:Hj;
      try (unfold step, stepC; rewrite Hj; done).
    destruct r as [faces|].
    + destruct (step_detect_fulfilled_fields _ _ _ _ faces Hj)
        as (_ & _ & _ & _ & -> & _).
      by rewrite list_lookup_delete_lt.
    + unfold step. rewrite (stepC_detect_rejected _ _ _ _ Hj). simpl.
      by rewrite list_lookup_delete_lt.
Qed.

Lemma run_leaves_call es : ∀ s i k,
  pending s !! i = Some k → Forall (leavesCall i) es →
  pending (run es s) !! i = Some k.
Proof.
  induction es as [|e es IH]; intros s i k Hk Hes; [done|].
  apply Forall_cons in Hes as [He Hes]. simpl.
  apply IH; [|done]. by apply step_leaves_call.
Qed.

(** C3, as amended.  [resetCheck] restores the initial checklist, streak 0
    and the idle flags and clears the timers, but it leaves the suspended
    call where it is, and so does every later event that settles neither
    that call nor an older one (a new start and the cycles of a new session
    among them).  At any such later point a call awaiting the camera goes on
    to detection when its photo arrives, and a detection result delivered to
    the call is written to the state: the checklist becomes the evaluation of
    that result, and the streak is updated from its value at that moment, one
    more on a full pass (readiness becoming true if it was at least 2
    already) and 0 otherwise.  Delivered directly after the stop, the result
    makes the streak 1 on a full pass and 0 otherwise, and readiness stays
    false. *)
Theorem result_after_stop_is_applied s i cl :
  let s1 := step ResetCheck s in
  (checklist s1 = initialChecklist ∧ passStreak s1 = 0
   ∧ allChecksPassed s1 = false ∧ isReady s1 = false
   ∧ isCapturing s1 = false ∧ timers s1 = NoTimer
   ∧ pending s1 = pending s)
  ∧ (∀ p es, pending s !! i = Some (AwaitCapture cl) →
       Forall (leavesCall i) es → noUri (Some p) = false →
       let s2 := run es s1 in
       pending s2 !! i = Some (AwaitCapture cl)
       ∧ pending (step (CaptureSettled i (Fulfilled (Some p))) s2) !! i
         = Some (AwaitDetect cl p))
  ∧ (∀ photo es faces, pending s !! i = Some (AwaitDetect cl photo) →
       Forall (leavesCall i) es →
       let s2 := run es s1 in
       let s3 := step (DetectSettled i (Fulfilled faces)) s2 in
       let pc := snd (evaluate cl faces photo) in
       pending s2 !! i = Some (AwaitDetect cl photo)
       ∧ checklist s3 = fst (evaluate cl faces photo)
       ∧ passStreak s3 = (if decide (pc = 5) then passStreak s2 + 1 else 0)
       ∧ allChecksPassed s3 =
           allChecksPassed s2
           || (bool_decide (pc = 5) && bool_decide (2 ≤ passStreak s2)))
  ∧ (∀ photo faces, pending s !! i = Some (AwaitDetect cl photo) →
       let s3 := step (DetectSettled i (Fulfilled faces)) s1 in
       checklist s3 = fst (evaluate cl faces photo)
       ∧ passStreak s3 = (if decide (snd (evaluate cl faces photo) = 5) then 1 else 0)
       ∧ allChecksPassed s3 = false).
Proof.
  cbv zeta.
  destruct (step_reset_fields s) as (Hr & Ha & Hs & Hc & Ht & Hl & Hp & _).
  split; [done|]. split; [|split].
  - intros p es Hi Hes Hu. rewrite <- Hp in Hi.
    pose proof (run_leaves_call es _ _ _ Hi Hes) as Hi'.
    split; [done|].
    set (s2 := run es (step ResetCheck s)) in *. unfold step.
    rewrite (stepC_capture_photo _ _ _ _ Hi' Hu). simpl.
    apply list_lookup_insert_eq. by eapply lookup_lt_Some.
  - intros photo es faces Hi Hes. rewrite <- Hp in Hi.
    pose proof (run_leaves_call es _ _ _ Hi Hes) as Hi'.
    split; [done|].
    by destruct (step_detect_fulfilled_fields _ _ _ _ faces Hi')
      as (-> & -> & -> & _).
  - intros photo faces Hi. rewrite <- Hp in Hi.
    destruct (step_detect_fulfilled_fields _ _ _ _ faces Hi)
      as (-> & -> & -> & _).
    rewrite Hs, Ha. simpl. split; [done|]. split; [done|].
    by rewrite andb_false_r.
Qed.

Lemma result_after_stop_is_applied_witness :
  let s1 := step ResetCheck awaitingDetection in
  let s2 := run laterSession s1 in
  (passStreak (step (DetectSettled 0 (Fulfilled [faceA])) s1) = 1
   ∧ allChecksPassed (step (DetectSettled 0 (Fulfilled [faceA])) s1) = false)
  ∧ pending s2 !! 0 = Some (AwaitDetect initialChecklist photoA)
  ∧ checklist (step (DetectSettled 0 (Fulfilled [faceA])) s2)
    = fst (evaluate initialChecklist [faceA] photoA)
  ∧ passStreak s2 = 2
  ∧ passStreak (step (DetectSettled 0 (Fulfilled [faceA])) s2) = 3
  ∧ allChecksPassed (step (DetectSettled 0 (Fulfilled [faceA])) s2) = true.
Proof.
  cbv zeta.
  destruct (result_after_stop_is_applied awaitingDetection 0 initialChecklist)
    as (_ & _ & Hlater & Hnow).
  destruct (Hnow photoA [faceA] eq_refl) as (_ & N2 & N3).
  assert (Forall (leavesCall 0) laterSession) as Hes
    by (repeat constructor; simpl; lia).
  destruct (Hlater photoA laterSession [faceA] eq_refl Hes)
    as (L1 & L2 & L3 & L4).
  assert (passStreak (run laterSession (step ResetCheck awaitingDetection)) = 2)
    as E2 by (vm_compute; reflexivity).
  assert (allChecksPassed (run laterSession (step ResetCheck awaitingDetection))
          = false) as Ea by (vm_compute; reflexivity).
  split; [split; [exact N2 | exact N3]|].
  split; [exact L1|]. split; [exact L2|]. split; [exact E2|].
  split.
  - rewrite L3, E2. reflexivity.
  - rewrite L4, E2, Ea. reflexivity.
Defined.

(** C3 as stated fails: the check is stopped while a call awaits the
    detector; the result delivered afterwards changes both the checklist and
    the streak that the stop had reset. *)
Lemma stop_in_flight_counterexample :
  let s1 := step ResetCheck awaitingDetection in
  let s2 := step (DetectSettled 0 (Fulfilled [faceA])) s1 in
  pending awaitingDetection !! 0 = Some (AwaitDetect initialChecklist photoA)
  ∧ checklist s1 = initialChecklist ∧ passStreak s1 = 0
  ∧ checklist s2 ≠ checklist s1
  ∧ passStreak s2 ≠ passStreak s1.
Proof.
  cbv zeta. split; [reflexivity|]. split; [reflexivity|]. split; [reflexivity|].
  split; [|vm_compute; discriminate].
  intros H. apply (f_equal (λ l, statusAt l 0)) in H. vm_compute in H.
  discriminate H.
Qed.

(** ** After readiness *)

Lemma analyzeFrame_ready s : allChecksPassed s = true → analyzeFrame s = s.
Proof. intros H. unfold analyzeFrame. rewrite H. by rewrite !orb_true_r. Qed.

(** One event in a ready state, other than a start or a reset: readiness
    stays, no call is added to the suspended ones, and with none suspended
    the event changes nothing or is one of the two that touch only
    [cameraReady] and the timers. *)
Lemma step_ready s e :
  allChecksPassed s = true → inSession e →
  allChecksPassed (step e s) = true
  ∧ length (pending (step e s)) ≤ length (pending s)
  ∧ (pending s = [] →
       step e s = s ∨ e = OnCameraReady ∨ e = StartDelayElapsed).
Proof.
  intros Hr [Hs Hx].
  destruct e as [| | | | |i r|i r]; try done.
  - (* OnCameraReady *)
    unfold step, stepC; cbn [fst].
    destruct (commit_others false s (onCameraReady s))
      as (_ & _ & -> & _ & _ & _ & _ & -> & _). simpl. auto.
  - (* StartDelayElapsed *)
    unfold step, stepC. destruct (timers s); simpl; auto.
  - (* IntervalTick *)
    unfold step, stepC. rewrite (analyzeFrame_ready _ Hr).
    destruct (timers s); simpl; auto.
  - (* CaptureSettled *)
    unfold step.
    destruct (pending s !! i) as [[cl|cl p]|] eqn:Hp;
      try (unfold stepC; rewrite Hp; simpl;
           split; [done|split; [lia|auto]]).
    assert (pending s ≠ []) as Hne by (intros E; by rewrite E in Hp).
    destruct r as [[p|]|].
    + destruct (noUri (Some p)) eqn:Hu.
      * rewrite (stepC_capture_noUri _ _ _ _ Hp Hu). simpl.
        split; [done|]. split; [|done].
        rewrite length_delete by eauto. lia.
      * rewrite (stepC_capture_photo _ _ _ _ Hp Hu). simpl.
        split; [done|]. split; [|done]. by rewrite length_insert.
    + rewrite (stepC_capture_noUri _ _ _ None Hp eq_refl). simpl.
      split; [done|]. split; [|done].
      rewrite length_delete by eauto. lia.
    + rewrite (stepC_capture_rejected _ _ _ Hp). simpl.
      split; [done|]. split; [|done].
      rewrite length_delete by eauto. lia.
  - (* DetectSettled *)
    destruct (pending s !! i) as [[cl|cl p]|] eqn:Hp;
      try (unfold step, stepC; rewrite Hp; simpl;
           split; [done|split; [lia|auto]]).
    assert (pending s ≠ []) as Hne by (intros E; by rewrite E in Hp).
    destruct r as [faces|].
    + destruct (step_detect_fulfilled_fields _ _ _ _ faces Hp)
        as (_ & _ & -> & _ & -> & _).
      rewrite Hr. simpl. split; [done|]. split; [|done].
      rewrite length_delete by eauto. lia.
    + unfold step. rewrite (stepC_detect_rejected _ _ _ _ Hp). simpl.
      split; [done|]. split; [|done].
      rewrite length_delete by eauto. lia.
Qed.

Lemma step_idle_events s e :
  e = OnCameraReady ∨ e = StartDelayElapsed →
  checklist (step e s) = checklist s
  ∧ passStreak (step e s) = passStreak s
  ∧ pending (step e s) = pending s.
Proof.
  intros [-> | ->]; unfold step, stepC; cbn [fst].
  - destruct (commit_others false s (onCameraReady s))
      as (_ & _ & _ & -> & -> & _ & _ & -> & _). done.
  - destruct (timers s); done.
Qed.

(** C9, as amended.  From a state in which readiness is true, along every
    sequence of events that contains neither a start nor a reset: readiness
    stays true; every firing of the interval leaves the state as it is, so no
    evaluation cycle is begun (the suspended calls never grow in number);
    and, provided no call is in flight when readiness holds, the checklist
    and the streak never change. *)
Theorem ready_is_latched s es :
  allChecksPassed s = true → Forall inSession es →
  allChecksPassed (run es s) = true
  ∧ step IntervalTick (run es s) = run es s
  ∧ length (pending (run es s)) ≤ length (pending s)
  ∧ (pending s = [] →
       checklist (run es s) = checklist s
       ∧ passStreak (run es s) = passStreak s
       ∧ pending (run es s) = []).
Proof.
  intros Hr Hes. revert s Hr.
  induction Hes as [|e es He Hes IH]; intros s Hr.
  - simpl. split; [done|]. split; [|split; [lia|done]].
    unfold step, stepC. rewrite (analyzeFrame_ready _ Hr). by destruct (timers s).
  - simpl.
    destruct (step_ready s e Hr He) as (Hr' & Hlen & Hquiet).
    destruct (IH _ Hr') as (H1 & H2 & H3 & H4).
    split; [done|]. split; [done|]. split; [lia|].
    intros Hnil.
    assert (checklist (step e s) = checklist s
            ∧ passStreak (step e s) = passStreak s
            ∧ pending (step e s) = pending s) as (Ec & Es & Ep).
    { destruct (Hquiet Hnil) as [-> | Hev]; [done|].
      by apply step_idle_events. }
    rewrite Hnil in Ep. destruct (H4 Ep) as (-> & -> & ->). done.
Qed.

(** ** Stabilization *)

Lemma trailingFull_snoc pcs pc :
  trailingFull (pcs ++ [pc]) = if decide (pc = 5) then S (trailingFull pcs) else 0.
Proof. unfold trailingFull. by rewrite reverse_snoc. Qed.

Lemma trailingFull_nil : trailingFull [] = 0.
Proof. reflexivity. Qed.

Lemma trailingFull_two pcs :
  2 ≤ trailingFull pcs ↔ ∃ front, pcs = front ++ [5; 5].
Proof.
  split.
  - destruct pcs as [|x pcs _] using rev_ind; [rewrite trailingFull_nil; lia|].
    rewrite trailingFull_snoc. case_decide as Hx; [subst x|lia].
    destruct pcs as [|y pcs _] using rev_ind; [rewrite trailingFull_nil; lia|].
    rewrite trailingFull_snoc. case_decide as Hy; [subst y|lia].
    intros _. exists pcs. by rewrite <- app_assoc.
  - intros [front ->].
    change [5; 5] with ([5] ++ [5]). rewrite app_assoc, !trailingFull_snoc.
    simpl. lia.
Qed.

Lemma threeInARow_snoc pcs pc :
  threeInARow (pcs ++ [pc]) ↔
  threeInARow pcs ∨ (pc = 5 ∧ ∃ front, pcs = front ++ [5; 5]).
Proof.
  split.
  - intros (before & after & E).
    destruct after as [|x after _] using rev_ind.
    + right. change ([5; 5; 5] ++ []) with ([5; 5] ++ [5]) in E.
      rewrite app_assoc in E. apply app_inj_tail in E as [-> ->].
      split; [done|]. by exists before.
    + left. rewrite !app_assoc in E. apply app_inj_tail in E as [-> _].
      exists before, after. by rewrite <- app_assoc.
  - intros [(before & after & ->) | [-> [front ->]]].
    + exists before, (after ++ [pc]). by rewrite <- !app_assoc.
    + exists front, []. by rewrite <- app_assoc.
Qed.

Lemma tracks_snoc pcs streak ready pc :
  tracks pcs streak ready →
  tracks (pcs ++ [pc])
    (if decide (pc = 5) then streak + 1 else 0)
    (ready || (bool_decide (pc = 5) && bool_decide (2 ≤ streak))).
Proof.
  intros [Hready Hstreak]. unfold tracks.
  rewrite threeInARow_snoc, trailingFull_snoc.
  destruct ready; simpl.
  - split; [|done]. split; [intros _|done]. left. by apply Hready.
  - destruct (Hstreak eq_refl) as [-> Hlt].
    assert (¬ threeInARow pcs) as Hno by (intros H; by apply Hready in H).
    case_decide as Hpc; case_bool_decide as Hpc'; try done; simpl.
    + case_bool_decide as H2; simpl.
      * split; [|done]. split; [intros _|done]. right.
        split; [done|]. by apply trailingFull_two.
      * split; [|intros _; lia].
        split; [done|]. intros [H | [_ H]]; [done|].
        apply trailingFull_two in H. lia.
    + split; [|intros _; lia].
      split; [done|]. by intros [H | [H _]].
Qed.

(** Only a start, a reset or an evaluation writes the streak or readiness. *)
Lemma step_not_evaluated s e :
  inSession e → evaluated e s = None →
  passStreak (step e s) = passStreak s
  ∧ allChecksPassed (step e s) = allChecksPassed s.
Proof.
  intros [Hs Hx] He.
  destruct e as [| | | | |i r|i r]; try done.
  - unfold step, stepC; cbn [fst].
    destruct (commit_others false s (onCameraReady s))
      as (_ & _ & -> & -> & _). done.
  - unfold step, stepC; cbn [fst]. by destruct (timers s).
  - unfold step, stepC; cbn [fst]. destruct (timers s); try done.
    unfold analyzeFrame. by destruct (_ || _).
  - unfold step.
    destruct (pending s !! i) as [[cl|cl p]|] eqn:Hp;
      try (unfold stepC; rewrite Hp; done).
    destruct r as [[p|]|].
    + destruct (noUri (Some p)) eqn:Hu.
      * by rewrite (stepC_capture_noUri _ _ _ _ Hp Hu).
      * by rewrite (stepC_capture_photo _ _ _ _ Hp Hu).
    + by rewrite (stepC_capture_noUri _ _ _ None Hp eq_refl).
    + by rewrite (stepC_capture_rejected _ _ _ Hp).
  - unfold step.
    destruct (pending s !! i) as [[cl|cl p]|] eqn:Hp;
      try (unfold stepC; rewrite Hp; done).
    destruct r as [faces|].
    + simpl in He. by rewrite Hp in He.
    + by rewrite (stepC_detect_rejected _ _ _ _ Hp).
Qed.

Lemma step_evaluated s e pc :
  evaluated e s = Some pc →
  passStreak (step e s) = (if decide (pc = 5) then passStreak s + 1 else 0)
  ∧ allChecksPassed (step e s) =
      allChecksPassed s || (bool_decide (pc = 5) && bool_decide (2 ≤ passStreak s)).
Proof.
  intros He.
  destruct e as [| | | | |i r|i [faces|]]; try done.
  simpl in He.
  destruct (pending s !! i) as [[cl|cl p]|] eqn:Hp; try done.
  injection He as <-.
  destruct (step_detect_fulfilled_fields _ _ _ _ faces Hp) as (_ & -> & -> & _).
  done.
Qed.

Lemma run_tracks es : ∀ s history,
  Forall inSession es →
  tracks history (passStreak s) (allChecksPassed s) →
  tracks (history ++ passCounts es s)
    (passStreak (run es s)) (allChecksPassed (run es s)).
Proof.
  induction es as [|e es IH]; intros s history Hes Ht.
  - simpl. by rewrite app_nil_r.
  - apply Forall_cons in Hes as [He Hes]. simpl.
    destruct (evaluated e s) as [pc|] eqn:Hev.
    + destruct (step_evaluated _ _ _ Hev) as [Es Ea].
      change (pc :: passCounts es (step e s))
        with ([pc] ++ passCounts es (step e s)).
      rewrite app_assoc. apply IH; [done|].
      rewrite Es, Ea. by apply tracks_snoc.
    + destruct (step_not_evaluated _ _ He Hev) as [Es Ea].
      apply IH; [done|]. by rewrite Es, Ea.
Qed.

(** C1.  In a session that begins with streak 0 and readiness false, along
    every sequence of events without start or reset: readiness is true
    exactly when the evaluations so far contain three full passes
    (passCount 5) in a row, so it is false with fewer and becomes true on the
    third consecutive full pass; while it is false the streak is the number of
    full passes at the end of the evaluations, below 3; and an evaluation with
    passCount other than 5 sets the streak to 0. *)
Theorem stabilization s es :
  passStreak s = 0 → allChecksPassed s = false → Forall inSession es →
  let s' := run es s in
  let pcs := passCounts es s in
  (allChecksPassed s' = true ↔ threeInARow pcs)
  ∧ (allChecksPassed s' = false →
       passStreak s' = trailingFull pcs ∧ trailingFull pcs < 3)
  ∧ (∀ e pc, evaluated e s' = Some pc → pc ≠ 5 → passStreak (step e s') = 0).
Proof.
  intros Hs Ha Hes. cbv zeta.
  assert (tracks [] (passStreak s) (allChecksPassed s)) as H0.
  { rewrite Hs, Ha. split; [|intros _; split; [reflexivity | lia]].
    split; [done|]. intros (before & after & E).
    by destruct before as [|? [|? [|? ?]]]. }
  destruct (run_tracks es s [] Hes H0) as [H1 H2]. simpl in H1, H2.
  split; [exact H1|]. split.
  - intros Hf. destruct (H2 Hf) as [E Hlt]. split; [done|]. by rewrite <- E.
  - intros e pc Hev Hpc.
    destruct (step_evaluated _ _ _ Hev) as [-> _]. by case_decide.
Qed.

Lemma stabilization_witness :
  allChecksPassed (run scenarioA sessionStart) = true
  ∧ passCounts scenarioA sessionStart = [5; 5; 5].
Proof.
  assert (Forall inSession scenarioA) as Hes.
  { unfold scenarioA, cycle. simpl. repeat constructor; discriminate. }
  destruct (stabilization sessionStart scenarioA eq_refl eq_refl Hes) as (H & _).
  split; [|vm_compute; reflexivity].
  apply H. exists [], []. vm_compute. reflexivity.
Defined.

Lemma ready_is_latched_witness :
  let es := [StartDelayElapsed; IntervalTick; OnCameraReady;
             CaptureSettled 0 (Fulfilled (Some photoA));
             DetectSettled 0 (Fulfilled [])] in
  allChecksPassed readyState = true
  ∧ allChecksPassed (run es readyState) = true
  ∧ checklist (run es readyState) = checklist readyState
  ∧ passStreak (run es readyState) = passStreak readyState.
Proof.
  cbv zeta. split; [vm_compute; reflexivity|].
  match goal with |- context [run ?es readyState] =>
    assert (Forall inSession es) as Hes
      by (repeat constructor; discriminate);
    destruct (ready_is_latched readyState es
                ltac:(vm_compute; reflexivity) Hes) as (H1 & _ & _ & H4)
  end.
  destruct (H4 ltac:(vm_compute; reflexivity)) as (H5 & H6 & _).
  split; [exact H1 | split; [exact H5 | exact H6]].
Defined.

(** ** One call at a time *)

Lemma singleton_lookup {A} (l : list A) i x :
  length l ≤ 1 → l !! i = Some x → l = [x] ∧ i = 0.
Proof.
  intros Hlen Hl. destruct l as [|y [|z l]]; simpl in *; try lia.
  - done.
  - destruct i; simpl in Hl; [by injection Hl as -> | done].
Qed.

Lemma step_oneInFlight s e :
  (e = ResetCheck → pending s = []) → oneInFlight s → oneInFlight (step e s).
Proof.
  intros Hstop (Hflag & Hlen & Hready). unfold oneInFlight.
  destruct e as [| | | | |i r|i r].
  - (* StartCheck *)
    unfold step, stepC; cbn [fst].
    destruct (commit_others false s (startCheck s))
      as (_ & _ & -> & _ & _ & _ & -> & -> & _). simpl. done.
  - (* ResetCheck *)
    destruct (step_reset_fields s) as (_ & -> & _ & _ & _ & _ & -> & _).
    rewrite (Hstop eq_refl). simpl. split; [done|]. split; [lia|done].
  - (* OnCameraReady *)
    unfold step, stepC; cbn [fst].
    destruct (commit_others false s (onCameraReady s))
      as (_ & _ & -> & _ & _ & _ & -> & -> & _). simpl. done.
  - unfold step, stepC; cbn [fst]. by destruct (timers s).
  - (* IntervalTick *)
    unfold step, stepC; cbn [fst]. destruct (timers s); try done.
    unfold analyzeFrame.
    destruct (_ || _) eqn:G; [done|].
    apply orb_false_iff in G as [G Ga]. apply orb_false_iff in G as [_ G].
    simpl. rewrite (Hflag G), Ga. simpl. split; [done|]. split; [lia|done].
  - (* CaptureSettled *)
    unfold step.
    destruct (pending s !! i) as [[cl|cl p]|] eqn:Hp;
      try (unfold stepC; rewrite Hp; done).
    destruct (singleton_lookup _ _ _ Hlen Hp) as [El ->].
    assert (isCapturing s = true) as Hc.
    { destruct (isCapturing s); [done|]. rewrite (Hflag eq_refl) in El. done. }
    assert (allChecksPassed s = false) as Ha.
    { destruct (allChecksPassed s); [|done]. rewrite (Hready eq_refl) in El. done. }
    destruct r as [[p|]|].
    + destruct (noUri (Some p)) eqn:Hu.
      * rewrite (stepC_capture_noUri _ _ _ _ Hp Hu). simpl. rewrite El. simpl.
        split; [done|]. split; [lia|done].
      * rewrite (stepC_capture_photo _ _ _ _ Hp Hu). simpl. rewrite El, Hc, Ha.
        simpl. split; [done|]. split; [lia|done].
    + rewrite (stepC_capture_noUri _ _ _ None Hp eq_refl). simpl. rewrite El.
      simpl. split; [done|]. split; [lia|done].
    + rewrite (stepC_capture_rejected _ _ _ Hp). simpl. rewrite El. simpl.
      split; [done|]. split; [lia|done].
  - (* DetectSettled *)
    destruct (pending s !! i) as [[cl|cl p]|] eqn:Hp;
      try (unfold step, stepC; rewrite Hp; done).
    destruct (singleton_lookup _ _ _ Hlen Hp) as [El ->].
    destruct r as [faces|].
    + destruct (step_detect_fulfilled_fields _ _ _ _ faces Hp)
        as (_ & _ & _ & _ & -> & _).
      rewrite El. simpl. split; [done|]. split; [lia|done].
    + unfold step. rewrite (stepC_detect_rejected _ _ _ _ Hp). simpl.
      rewrite El. simpl. split; [done|]. split; [lia|done].
Qed.

(** From the start of the program, as long as the check is not stopped while
    a call is in flight, at most one call is in flight, and none is once
    readiness is reached: in such sessions nothing is left in flight when
    the check becomes ready. *)
Lemma session_oneInFlight es :
  stopsWhenIdle es initialState → oneInFlight (run es initialState).
Proof.
  assert (oneInFlight initialState) as H0.
  { unfold oneInFlight. simpl. split; [done|]. split; [lia|done]. }
  revert H0. generalize initialState.
  induction es as [|e es IH]; intros s Hs Hes; [done|].
  destruct Hes as [Hstop Hes]. simpl.
  apply IH; [|done]. by apply step_oneInFlight.
Qed.

(** ** The local pass count and the checklist *)

(** The local [passCount] is 5 exactly when the five criteria are pass in the
    checklist the cycle writes. *)
Lemma passCount_five_iff cl faces photo :
  snd (evaluate cl faces photo) = 5 ↔
  ∀ i, i < 5 → statusAt (fst (evaluate cl faces photo)) i = Some pass.
Proof.
  destruct faces as [|face rest].
  - destruct (statusAt_evaluate_noFace cl photo) as (H0 & _).
    rewrite evaluate_noFace in *. simpl. split; [lia|].
    intros H. specialize (H 0 ltac:(lia)). simpl in H0. congruence.
  - destruct (statusAt_evaluate_face cl face rest photo) as (H0 & H1 & H2 & H3 & H4).
    assert (snd (evaluate cl (face :: rest) photo) =
            1 + point (framingStatus face photo) + point (eyesStatus face)
            + point (expressionStatus face) + point (positionStatus face)) as ->
      by (by rewrite evaluate_face).
    split.
    + intros Hpc i Hi. unfold point in Hpc.
      repeat case_decide; try lia.
      destruct i as [|[|[|[|[|i]]]]]; try lia; congruence.
    + intros H.
      rewrite (H 1 ltac:(lia)) in H1. rewrite (H 2 ltac:(lia)) in H2.
      rewrite (H 3 ltac:(lia)) in H3. rewrite (H 4 ltac:(lia)) in H4.
      injection H1 as <-. injection H2 as <-. injection H3 as <-.
      injection H4 as <-. reflexivity.
Qed.

(** Scenario A and Scenario B of the spec, run on the program. *)
Example scenarioA_ready_on_third_cycle :
  let c := cycle (Fulfilled (Some photoA)) (Fulfilled [faceA]) in
  allChecksPassed (run c sessionStart) = false
  ∧ allChecksPassed (run (c ++ c) sessionStart) = false
  ∧ allChecksPassed (run (c ++ c ++ c) sessionStart) = true
  ∧ passCounts scenarioA sessionStart = [5; 5; 5]
  ∧ passedCount (checklist (run scenarioA sessionStart)) = 5.
Proof. vm_compute. repeat split; reflexivity. Qed.

Example scenarioB_ready_on_fourth_cycle :
  passCounts scenarioB sessionStart = [0; 5; 5; 5]
  ∧ allChecksPassed
      (run (cycle (Fulfilled (Some photoA)) (Fulfilled [])
            ++ cycle (Fulfilled (Some photoA)) (Fulfilled [faceA])
            ++ cycle (Fulfilled (Some photoA)) (Fulfilled [faceA]))
         sessionStart) = false
  ∧ allChecksPassed (run scenarioB sessionStart) = true.
Proof. vm_compute. repeat split; reflexivity. Qed.

(** C9 as stated fails: readiness is reached while a call that an earlier
    stop left suspended is still in flight; its detection result, delivered
    with no start or reset in between, leaves readiness true but rewrites the
    checklist and sets the streak to 0. *)
Lemma ready_stale_result_counterexample :
  let e := DetectSettled 0 (Fulfilled []) in
  let s := readyWithStaleCall in
  allChecksPassed s = true
  ∧ inSession e
  ∧ allChecksPassed (step e s) = true
  ∧ checklist (step e s) ≠ checklist s
  ∧ passStreak s = 3 ∧ passStreak (step e s) = 0.
Proof.
  cbv zeta. split; [vm_compute; reflexivity|].
  split; [split; discriminate|].
  split; [vm_compute; reflexivity|].
  split; [|split; vm_compute; reflexivity].
  intros H. apply (f_equal (λ l, statusAt l 0)) in H. vm_compute in H.
  discriminate H.
Qed.

(** * Further properties of the evaluator *)

(** ** Expression and head position *)

(** X1.  With a face present, the expression criterion passes exactly when the
    smile probability exceeds the expression threshold; a pass reads
    "Great energy!" above 0.5 and "Engaged" otherwise, a failure reads
    "Smile a bit". *)
Theorem expression_rule cl face rest photo :
  let res := fst (evaluate cl (face :: rest) photo) in
  (statusAt res 3 = Some pass ↔
     (EXPRESSION_THRESHOLD THRESHOLDS <? smileProb face)%float = true)
  ∧ (statusAt res 3 = Some pass →
       detailAt res 3 =
       Some (if (0.5 <? smileProb face)%float then "Great energy!" else "Engaged")%string)
  ∧ (statusAt res 3 ≠ Some pass →
       statusAt res 3 = Some fail ∧ detailAt res 3 = Some "Smile a bit"%string).
Proof.
  cbv zeta.
  destruct (statusAt_evaluate_face cl face rest photo) as (_ & _ & _ & -> & _).
  destruct (detailAt_evaluate_face cl face rest photo) as (_ & _ & _ & -> & _).
  unfold expressionStatus, expressionDetail.
  destruct (_ <? smileProb face)%float; simpl.
  - split; [done|]. split; [done|]. intros H. by destruct H.
  - split; [split; congruence|]. split; [congruence|done].
Qed.

Lemma expression_rule_witness :
  statusAt (fst (evaluate initialChecklist [faceSerious] photoA)) 3 = Some fail
  ∧ detailAt (fst (evaluate initialChecklist [faceSerious] photoA)) 3
    = Some "Smile a bit"%string.
Proof.
  apply (proj2 (proj2 (expression_rule initialChecklist faceSerious [] photoA))).
  vm_compute. discriminate.
Defined.

(** X2.  With a face present, the head-position criterion passes exactly when the
    absolute roll is below the roll limit, and a roll of absolute value at
    least the limit fails with "Straighten head"; the roll is read from
    [headEulerAngleZ] when the detector gives it, whatever [rollAngle] holds. *)
Theorem headPosition_rule cl face rest photo :
  let res := fst (evaluate cl (face :: rest) photo) in
  (statusAt res 4 = Some pass ↔
     (abs (rollAngle face) <? HEAD_ROLL_LIMIT THRESHOLDS)%float = true)
  ∧ ((HEAD_ROLL_LIMIT THRESHOLDS <=? abs (rollAngle face))%float = true →
       statusAt res 4 = Some fail ∧ detailAt res 4 = Some "Straighten head"%string)
  ∧ (statusAt res 4 = Some pass → detailAt res 4 = Some "Good"%string)
  ∧ (∀ a, Face.headEulerAngleZ face = Some a → rollAngle face = a).
Proof.
  cbv zeta.
  destruct (statusAt_evaluate_face cl face rest photo) as (_ & _ & _ & _ & ->).
  destruct (detailAt_evaluate_face cl face rest photo) as (_ & _ & _ & _ & ->).
  unfold positionStatus, positionDetail.
  split; [|split; [|split]].
  - destruct (_ <? _)%float; split; congruence.
  - intros H. by rewrite (leb_true_ltb_false _ _ H).
  - destruct (_ <? _)%float; congruence.
  - intros a Ha. unfold rollAngle. by rewrite Ha.
Qed.

Lemma headPosition_rule_witness :
  (HEAD_ROLL_LIMIT THRESHOLDS <=? abs (rollAngle faceTilted))%float = true
  ∧ statusAt (fst (evaluate initialChecklist [faceTilted] photoA)) 4 = Some fail
  ∧ detailAt (fst (evaluate initialChecklist [faceTilted] photoA)) 4
    = Some "Straighten head"%string.
Proof.
  split; [vm_compute; reflexivity|].
  apply (proj1 (proj2 (headPosition_rule initialChecklist faceTilted [] photoA))).
  vm_compute; reflexivity.
Defined.

(** ** The framing hint *)

(** X3.  When framing fails, the hint is chosen by priority: off centre, it names
    a direction (horizontal when the horizontal offset is the larger one,
    vertical otherwise) and never the size; centred, it is "Move closer" when
    the width ratio is below the minimum and "Move back" otherwise. *)
Theorem framing_hint_priority cl face rest photo :
  let res := fst (evaluate cl (face :: rest) photo) in
  statusAt res 1 = Some fail →
  (centered face photo = false →
     detailAt res 1 =
     Some (if (offY face photo <? offX face photo)%float
           then (if (faceCenterX face photo <? 0.5)%float
                 then "Move right" else "Move left")
           else (if (faceCenterY face photo <? 0.5)%float
                 then "Move down" else "Move up"))%string)
  ∧ (centered face photo = true →
       goodSize face photo = false
       ∧ detailAt res 1 =
         Some (if (faceWidthRatio face photo <? MIN_FACE_SIZE THRESHOLDS)%float
               then "Move closer" else "Move back")%string).
Proof.
  cbv zeta.
  destruct (statusAt_evaluate_face cl face rest photo) as (_ & -> & _).
  destruct (detailAt_evaluate_face cl face rest photo) as (_ & -> & _).
  unfold framingStatus, framingDetail, framingHint.
  destruct (centered face photo), (goodSize face photo); simpl;
    intros H; try discriminate H; split; intros E; try discriminate E; done.
Qed.

Lemma framing_hint_priority_witness :
  detailAt (fst (evaluate initialChecklist [faceLeft] photoA)) 1
    = Some "Move right"%string
  ∧ detailAt (fst (evaluate initialChecklist [faceClose] photoA)) 1
    = Some "Move back"%string.
Proof.
  split.
  - apply (proj1 (framing_hint_priority initialChecklist faceLeft [] photoA
                    ltac:(vm_compute; reflexivity))).
    vm_compute; reflexivity.
  - apply (proj2 (framing_hint_priority initialChecklist faceClose [] photoA
                    ltac:(vm_compute; reflexivity))).
    vm_compute; reflexivity.
Defined.

(** ** Numbers that are not numbers, and a photo without width *)






(** Dividing by a zero width gives an infinity or NaN, whose offset from the
    centre is below no tolerance. *)
Lemma offset_over_zero (n : float) :
  (abs (n / 0 - 0.5) <? CENTER_TOLERANCE THRESHOLDS)%float = false.
Proof.
  rewrite ltb_spec, abs_spec, sub_spec, div_spec.
  change (Prim2SF 0) with (S754_zero false).
  destruct (Prim2SF n) as [[]|[]| |[] m e]; reflexivity.
Qed.

(** X5.  A photo of width 0 never passes framing, whatever the face: the cycle
    then counts fewer than five passes and sets the streak to 0. *)
Theorem zero_width_photo_fails_framing cl face rest photo :
  Photo.width photo = 0%float →
  statusAt (fst (evaluate cl (face :: rest) photo)) 1 = Some fail
  ∧ snd (evaluate cl (face :: rest) photo) < 5.
Proof.
  intros Hw.
  assert (framingStatus face photo = fail) as Hf.
  { unfold framingStatus, centered, offX, faceCenterX. rewrite Hw.
    by rewrite offset_over_zero. }
  destruct (statusAt_evaluate_face cl face rest photo) as (_ & -> & _).
  rewrite evaluate_face, Hf. cbn [snd]. split; [done|].
  unfold point. repeat case_decide; try done; lia.
Qed.

Lemma zero_width_photo_fails_framing_witness :
  statusAt (fst (evaluate initialChecklist [faceA]
                   (Photo.mk "file:///frame.jpg" 0 1000))) 1 = Some fail.
Proof.
  apply (zero_width_photo_fails_framing initialChecklist faceA []
           (Photo.mk "file:///frame.jpg" 0 1000) eq_refl).
Defined.

(** ** The progress count and the shape of the checklist *)

(** X6.  The number shown as progress, [passedCount] of the checklist a cycle
    writes (line 259), is the local [passCount] of that cycle when the
    checklist had at most five entries; it is at most 5, and it is 0 exactly
    when no face was detected. *)
Theorem progress_count cl faces photo :
  (length cl ≤ 5 →
     passedCount (fst (evaluate cl faces photo)) = snd (evaluate cl faces photo))
  ∧ snd (evaluate cl faces photo) ≤ 5
  ∧ (snd (evaluate cl faces photo) = 0 ↔ faces = []).
Proof.
  split; [|split].
  - intros Hlen.
    destruct faces as [|face rest].
    + destruct cl as [|a0 [|a1 [|a2 [|a3 [|a4 [|a5 cl]]]]]];
        simpl in Hlen; try lia; reflexivity.
    + rewrite evaluate_face. cbn [fst snd].
      destruct (framingStatus face photo), (eyesStatus face),
        (expressionStatus face), (positionStatus face);
        destruct cl as [|a0 [|a1 [|a2 [|a3 [|a4 [|a5 cl]]]]]];
        simpl in Hlen; try lia; reflexivity.
  - apply passCount_le_5.
  - destruct faces as [|face rest]; [done|].
    rewrite evaluate_face. cbn [snd]. split; [lia|done].
Qed.

Lemma progress_count_witness :
  passedCount (fst (evaluate initialChecklist [faceSerious] photoA)) = 4
  ∧ snd (evaluate initialChecklist [faceSerious] photoA) = 4.
Proof.
  pose proof (proj1 (progress_count initialChecklist [faceSerious] photoA)
                ltac:(simpl; lia)) as H.
  split; [rewrite H|]; vm_compute; reflexivity.
Defined.

Lemma wellFormed_inv cl :
  wellFormed cl →
  ∃ s0 d0 s1 d1 s2 d2 s3 d3 s4 d4,
    cl = [Item.mk (Some "face") (Some "Face Detected") (Some s0) (Some d0) (Some "👤");
          Item.mk (Some "framing") (Some "Face Centered") (Some s1) (Some d1) (Some "📐");
          Item.mk (Some "eyeContact") (Some "Eye Contact") (Some s2) (Some d2) (Some "👀");
          Item.mk (Some "expression") (Some "Good Expression") (Some s3) (Some d3) (Some "😊");
          Item.mk (Some "headPosition") (Some "Head Position") (Some s4) (Some d4) (Some "🎯")
         ]%string.
Proof.
  intros (Hid & Hlabel & Hicon & Hsome).
  destruct cl as [|[i0 l0 s0 d0 c0] [|[i1 l1 s1 d1 c1] [|[i2 l2 s2 d2 c2]
    [|[i3 l3 s3 d3 c3] [|[i4 l4 s4 d4 c4] [|a5 cl]]]]]]; try discriminate Hid.
  simpl in Hid, Hlabel, Hicon.
  injection Hid as -> -> -> -> ->. injection Hlabel as -> -> -> -> ->.
  injection Hicon as -> -> -> -> ->.
  repeat match goal with
         | H : Forall _ (_ :: _) |- _ => apply Forall_cons in H as [[[? ?] [? ?]] H]
         end.
  simpl in *. subst. eauto 11.
Qed.

Lemma evaluate_ignores_previous_aux cl faces photo :
  wellFormed cl →
  evaluate cl faces photo = evaluate initialChecklist faces photo
  ∧ wellFormed (fst (evaluate cl faces photo)).
Proof.
  intros Hwf.
  destruct (wellFormed_inv cl Hwf)
    as (s0 & d0 & s1 & d1 & s2 & d2 & s3 & d3 & s4 & d4 & ->).
  destruct faces as [|face rest].
  - split; [reflexivity|].
    repeat split; try reflexivity. repeat constructor; by eexists.
  - rewrite !evaluate_face. split; [reflexivity|].
    repeat split; try reflexivity. repeat constructor; by eexists.
Qed.

(** X7.  A cycle carries nothing over from the checklist it copied: whatever
    that checklist holds, the five statuses, the five details and the pass
    count it produces are those produced from the initial checklist; and for
    a checklist of the five entries the whole result is the same and is again
    a checklist of the five entries. *)
Theorem evaluate_ignores_previous cl faces photo :
  (∀ i, i < 5 →
     statusAt (fst (evaluate cl faces photo)) i
       = statusAt (fst (evaluate initialChecklist faces photo)) i
     ∧ detailAt (fst (evaluate cl faces photo)) i
       = detailAt (fst (evaluate initialChecklist faces photo)) i)
  ∧ snd (evaluate cl faces photo) = snd (evaluate initialChecklist faces photo)
  ∧ (wellFormed cl →
       evaluate cl faces photo = evaluate initialChecklist faces photo
       ∧ wellFormed (fst (evaluate cl faces photo))).
Proof.
  split; [|split].
  - intros i Hi. destruct faces as [|face rest].
    + rewrite !evaluate_noFace. cbn [fst].
      rewrite !statusAt_assign, !detailAt_assign.
      destruct i as [|[|[|[|[|i]]]]]; try lia; done.
    + rewrite !evaluate_face. cbn [fst].
      rewrite !statusAt_assign, !detailAt_assign.
      destruct i as [|[|[|[|[|i]]]]]; try lia; done.
  - apply passCount_closure.
  - apply evaluate_ignores_previous_aux.
Qed.

Lemma evaluate_ignores_previous_witness :
  evaluate (fst (evaluate initialChecklist [faceTurned] photoA)) [faceA] photoA
  = evaluate initialChecklist [faceA] photoA.
Proof.
  apply (proj2 (proj2 (evaluate_ignores_previous
           (fst (evaluate initialChecklist [faceTurned] photoA)) [faceA] photoA))).
  repeat split; try reflexivity. repeat constructor; by eexists.
Defined.

(** * Further properties of the sampling loop *)

Lemma wellFormed_initial : wellFormed initialChecklist.
Proof. repeat split; try reflexivity. repeat constructor; by eexists. Qed.

(** ** The checklist keeps its five entries *)

Lemma Forall_delete_suspended (P : Suspended → Prop) l i :
  Forall P l → Forall P (delete i l).
Proof.
  intros H. revert i. induction H as [|x l Hx Hl IH]; intros [|i]; simpl;
    try done; by constructor.
Qed.

Lemma step_checklistsWellFormed s e :
  checklistsWellFormed s → checklistsWellFormed (step e s).
Proof.
  intros [Hc Hp]. unfold checklistsWellFormed.
  destruct e as [| | | | |i r|i r].
  - unfold step, stepC; cbn [fst].
    destruct (commit_others false s (startCheck s))
      as (_ & _ & _ & _ & -> & _ & _ & -> & _). done.
  - destruct (step_reset_fields s) as (_ & _ & _ & _ & _ & -> & -> & _).
    split; [apply wellFormed_initial | done].
  - unfold step, stepC; cbn [fst].
    destruct (commit_others false s (onCameraReady s))
      as (_ & _ & _ & _ & -> & _ & _ & -> & _). done.
  - unfold step, stepC; cbn [fst]. by destruct (timers s).
  - unfold step, stepC; cbn [fst]. destruct (timers s); try done.
    unfold analyzeFrame. destruct (_ || _); [done|]. simpl.
    split; [done|]. apply Forall_app. split; [done|]. by constructor.
  - unfold step.
    destruct (pending s !! i) as [[cl|cl p]|] eqn:Hi;
      try (unfold stepC; rewrite Hi; done).
    pose proof (Forall_lookup_1 _ _ _ _ Hp Hi) as Hcl. simpl in Hcl.
    destruct r as [[p|]|].
    + destruct (noUri (Some p)) eqn:Hu.
      * rewrite (stepC_capture_noUri _ _ _ _ Hi Hu). simpl.
        split; [done|]. by apply Forall_delete_suspended.
      * rewrite (stepC_capture_photo _ _ _ _ Hi Hu). simpl.
        split; [done|]. by apply Forall_insert.
    + rewrite (stepC_capture_noUri _ _ _ None Hi eq_refl). simpl.
      split; [done|]. by apply Forall_delete_suspended.
    + rewrite (stepC_capture_rejected _ _ _ Hi). simpl.
      split; [done|]. by apply Forall_delete_suspended.
  - destruct (pending s !! i) as [[cl|cl p]|] eqn:Hi;
      try (unfold step, stepC; rewrite Hi; done).
    pose proof (Forall_lookup_1 _ _ _ _ Hp Hi) as Hcl. simpl in Hcl.
    destruct r as [faces|].
    + destruct (step_detect_fulfilled_fields _ _ _ _ faces Hi)
        as (-> & _ & _ & _ & -> & _).
      split; [by apply evaluate_ignores_previous_aux|].
      by apply Forall_delete_suspended.
    + unfold step. rewrite (stepC_detect_rejected _ _ _ _ Hi). simpl.
      split; [done|]. by apply Forall_delete_suspended.
Qed.

Lemma run_checklistsWellFormed es :
  ∀ s, checklistsWellFormed s → checklistsWellFormed (run es s).
Proof.
  induction es as [|e es IH]; intros s Hs; [done|].
  simpl. apply IH. by apply step_checklistsWellFormed.
Qed.

Lemma initial_checklistsWellFormed : checklistsWellFormed initialState.
Proof. split; [apply wellFormed_initial | constructor]. Qed.

(** X8.  In every state the program can reach, whatever the events and their
    order, the checklist has exactly the five entries of the initial array,
    with their ids, labels and icons in order and each with a status and a
    detail; so has every checklist captured by a suspended call, and the
    progress count never exceeds 5. *)
Theorem checklist_shape_invariant es :
  let s := run es initialState in
  wellFormed (checklist s)
  ∧ Forall (λ k, wellFormed (closureOf k)) (pending s)
  ∧ length (checklist s) = 5
  ∧ passedCount (checklist s) ≤ 5.
Proof.
  cbv zeta.
  destruct (run_checklistsWellFormed es _ initial_checklistsWellFormed)
    as [Hc Hp].
  split; [done|]. split; [done|].
  destruct (wellFormed_inv _ Hc)
    as (s0 & d0 & s1 & d1 & s2 & d2 & s3 & d3 & s4 & d4 & ->).
  split; [reflexivity|].
  unfold passedCount.
  etransitivity; [apply length_filter|]. simpl. lia.
Qed.

(** X9.  What a cycle writes depends on its frame only: in every reachable state,
    delivering the detector's answer to a call that awaits it sets the
    checklist to the evaluation of that answer from the initial checklist,
    whenever the call was started and whatever happened since. *)
Theorem written_checklist_depends_on_frame_only es i cl photo faces :
  let s := run es initialState in
  pending s !! i = Some (AwaitDetect cl photo) →
  checklist (step (DetectSettled i (Fulfilled faces)) s)
  = fst (evaluate initialChecklist faces photo).
Proof.
  cbv zeta. intros Hi.
  destruct (run_checklistsWellFormed es _ initial_checklistsWellFormed)
    as [_ Hp].
  pose proof (Forall_lookup_1 _ _ _ _ Hp Hi) as Hcl. simpl in Hcl.
  destruct (step_detect_fulfilled_fields _ _ _ _ faces Hi) as (-> & _).
  by destruct (evaluate_ignores_previous_aux cl faces photo Hcl) as [-> _].
Qed.

Lemma written_checklist_depends_on_frame_only_witness :
  checklist (step (DetectSettled 0 (Fulfilled [faceTurned]))
               (run staleSession initialState))
  = fst (evaluate initialChecklist [faceTurned] photoA).
Proof.
  apply (written_checklist_depends_on_frame_only staleSession
           0 initialChecklist photoA [faceTurned]).
  vm_compute. reflexivity.
Defined.

(** ** Timers *)

Lemma samplingEffect_timers s :
  timers (samplingEffect s) =
  if isReady s && cameraReady s && negb (allChecksPassed s)
  then StartDelay else NoTimer.
Proof. unfold samplingEffect. by destruct (_ && _). Qed.

Lemma samplingEffect_timersWhileRunning s : timersWhileRunning (samplingEffect s).
Proof.
  unfold timersWhileRunning, running. rewrite samplingEffect_timers.
  destruct (samplingEffect_others s) as (-> & -> & -> & _).
  destruct (isReady s), (cameraReady s), (allChecksPassed s); simpl; done.
Qed.

Lemma commit_timersWhileRunning b old new :
  timersWhileRunning old → timers new = timers old →
  timersWhileRunning (commit b old new).
Proof.
  intros Hold Ht. unfold commit.
  destruct (_ || _) eqn:E; [apply samplingEffect_timersWhileRunning|].
  repeat (apply orb_false_iff in E as [E ?]).
  unfold timersWhileRunning, running in *. rewrite Ht.
  destruct (isReady old), (isReady new), (cameraReady old), (cameraReady new),
    (allChecksPassed old), (allChecksPassed new); simpl in *; done.
Qed.

Lemma step_timersWhileRunning s e :
  timersWhileRunning s → timersWhileRunning (step e s).
Proof.
  intros Hs.
  destruct e as [| | | | |i r|i r].
  - unfold step, stepC; cbn [fst]. by apply commit_timersWhileRunning.
  - unfold timersWhileRunning.
    by destruct (step_reset_fields s) as (_ & _ & _ & _ & -> & _).
  - unfold step, stepC; cbn [fst]. by apply commit_timersWhileRunning.
  - unfold step, stepC; cbn [fst].
    destruct (timers s) eqn:Et; try done.
    unfold timersWhileRunning in *. simpl. intros _. apply Hs. by rewrite Et.
  - unfold step, stepC; cbn [fst]. destruct (timers s) eqn:Et; try done.
    unfold analyzeFrame. destruct (_ || _); [done|].
    unfold timersWhileRunning in *. simpl. done.
  - unfold step.
    destruct (pending s !! i) as [[cl|cl p]|] eqn:Hi;
      try (unfold stepC; rewrite Hi; done).
    destruct r as [[p|]|].
    + destruct (noUri (Some p)) eqn:Hu.
      * by rewrite (stepC_capture_noUri _ _ _ _ Hi Hu).
      * by rewrite (stepC_capture_photo _ _ _ _ Hi Hu).
    + by rewrite (stepC_capture_noUri _ _ _ None Hi eq_refl).
    + by rewrite (stepC_capture_rejected _ _ _ Hi).
  - unfold step.
    destruct (pending s !! i) as [[cl|cl p]|] eqn:Hi;
      try (unfold stepC; rewrite Hi; done).
    destruct r as [faces|].
    + rewrite (stepC_detect_fulfilled _ _ _ _ faces Hi). cbn [fst].
      apply samplingEffect_timersWhileRunning.
    + by rewrite (stepC_detect_rejected _ _ _ _ Hi).
Qed.

Lemma run_timersWhileRunning es :
  ∀ s, timersWhileRunning s → timersWhileRunning (run es s).
Proof.
  induction es as [|e es IH]; intros s Hs; [done|].
  simpl. apply IH. by apply step_timersWhileRunning.
Qed.

(** X10.  In every state the program can reach, a timer is armed only while the
    check is running (started, camera ready, not all passed); and a firing of
    the interval that changes anything, that is, begins a capture, happens
    only then, with the camera mounted and no call flagged in flight. *)
Theorem capture_only_while_running es :
  let s := run es initialState in
  (timers s ≠ NoTimer → running s)
  ∧ (step IntervalTick s ≠ s →
       running s ∧ timers s = Interval
       ∧ cameraRef s = true ∧ isCapturing s = false).
Proof.
  cbv zeta.
  assert (timersWhileRunning (run es initialState)) as Hinv.
  { apply run_timersWhileRunning. by intros H. }
  split; [exact Hinv|].
  set (s := run es initialState) in *. clearbody s.
  unfold step, stepC; cbn [fst]. intros Hne.
  destruct (timers s) eqn:Et; try done.
  split; [apply Hinv; by rewrite Et|]. split; [done|].
  unfold analyzeFrame in Hne.
  destruct (cameraRef s), (isCapturing s); simpl in Hne; try done.
  by rewrite orb_true_r in Hne.
Qed.

Lemma capture_only_while_running_witness :
  let s := run [StartCheck; OnCameraReady; StartDelayElapsed] initialState in
  step IntervalTick s ≠ s ∧ running s ∧ timers s = Interval.
Proof.
  cbv zeta.
  assert (step IntervalTick
            (run [StartCheck; OnCameraReady; StartDelayElapsed] initialState)
          ≠ run [StartCheck; OnCameraReady; StartDelayElapsed] initialState) as Hne.
  { intros H. apply (f_equal isCapturing) in H. vm_compute in H. discriminate H. }
  split; [exact Hne|].
  destruct (proj2 (capture_only_while_running
                     [StartCheck; OnCameraReady; StartDelayElapsed]) Hne)
    as (H1 & H2 & _).
  split; [exact H1 | exact H2].
Defined.

Lemma step_detect_fulfilled_timers s i cl photo faces :
  pending s !! i = Some (AwaitDetect cl photo) →
  timers (step (DetectSettled i (Fulfilled faces)) s) =
  if isReady s && cameraReady s
     && negb (allChecksPassed (step (DetectSettled i (Fulfilled faces)) s))
  then StartDelay else NoTimer.
Proof.
  intros Hi.
  destruct (step_detect_fulfilled_fields _ _ _ _ faces Hi)
    as (_ & _ & Ha & _ & _ & Hr & Hc & _).
  rewrite <- Hr, <- Hc. unfold step in *.
  rewrite (stepC_detect_fulfilled _ _ _ _ faces Hi) in *. cbn [fst] in *.
  rewrite samplingEffect_timers.
  match goal with |- context [samplingEffect ?x] =>
    by destruct (samplingEffect_others x) as (-> & -> & -> & _) end.
Qed.

(** X11.  Each evaluation tears the interval down: once the detector's answer is
    delivered, the timers are back at the start delay when the check is still
    running and off otherwise, so the interval does not fire again before a
    new start delay has elapsed; a firing delivered anyway changes nothing. *)
Theorem evaluation_restarts_delay s i cl photo faces :
  pending s !! i = Some (AwaitDetect cl photo) →
  let s' := step (DetectSettled i (Fulfilled faces)) s in
  timers s' =
    (if isReady s && cameraReady s && negb (allChecksPassed s')
     then StartDelay else NoTimer)
  ∧ step IntervalTick s' = s'.
Proof.
  intros Hi. cbv zeta.
  pose proof (step_detect_fulfilled_timers s i cl photo faces Hi) as Ht.
  split; [exact Ht|].
  unfold step at 1. unfold stepC. cbn [fst]. rewrite Ht.
  by destruct (_ && _).
Qed.

Lemma evaluation_restarts_delay_witness :
  let s' := step (DetectSettled 0 (Fulfilled [faceA])) awaitingDetection in
  timers awaitingDetection = Interval
  ∧ timers s' = StartDelay ∧ step IntervalTick s' = s'.
Proof.
  cbv zeta. split; [reflexivity|].
  destruct (evaluation_restarts_delay awaitingDetection 0 initialChecklist
              photoA [faceA] eq_refl) as [H1 H2].
  split; [rewrite H1; vm_compute; reflexivity | exact H2].
Defined.

(** ** Stop and restart *)

(** X12.  [resetCheck] and the render that follows lead to the same state whatever
    was going on: the initial checklist, streak 0, both readiness values
    false, no timer, the in-flight flag cleared; only the camera's ready
    signal, the suspended calls and the log are kept.  Stopping twice is
    stopping once. *)
Theorem reset_idempotent s :
  step ResetCheck s =
    mkState false (cameraReady s) false 0 initialChecklist
      (cameraRef s) false NoTimer (pending s) (console s)
  ∧ step ResetCheck (step ResetCheck s) = step ResetCheck s.
Proof.
  assert (∀ s, step ResetCheck s =
    mkState false (cameraReady s) false 0 initialChecklist
      (cameraRef s) false NoTimer (pending s) (console s)) as H.
  { intros [? ? ? ? ? ? ? t ? ?]. by destruct t. }
  split; [apply H|]. by rewrite !H.
Qed.

(** X13.  A stop does not wait for the call in flight and lets the next session
    begin another: after reset, start, the start delay and one firing of the
    interval, a new call is suspended beside every call that was suspended
    before, so two calls can be in flight at once. *)
Theorem restart_overlaps_call_in_flight s :
  cameraRef s = true → cameraReady s = true →
  let s' := run [ResetCheck; StartCheck; StartDelayElapsed; IntervalTick] s in
  pending s' = pending s ++ [AwaitCapture initialChecklist]
  ∧ isCapturing s' = true.
Proof.
  intros Hr Hc. cbv zeta.
  destruct s as [? ? ? ? ? ? ? t ? ?]. simpl in Hr, Hc. subst.
  by destruct t.
Qed.

Lemma restart_overlaps_call_in_flight_witness :
  let s' := run [ResetCheck; StartCheck; StartDelayElapsed; IntervalTick]
              awaitingDetection in
  pending s' = [AwaitDetect initialChecklist photoA; AwaitCapture initialChecklist].
Proof.
  cbv zeta.
  by rewrite (proj1 (restart_overlaps_call_in_flight awaitingDetection
                       eq_refl eq_refl)).
Defined.

(** ** Sessions in which the check is never stopped mid-cycle *)

Lemma event_cases e : e = StartCheck ∨ e = ResetCheck ∨ inSession e.
Proof. destruct e; auto; right; right; split; discriminate. Qed.

Lemma step_isReady s e : inSession e → isReady (step e s) = isReady s.
Proof.
  intros [Hs Hx].
  destruct e as [| | | | |i r|i r]; try done.
  - unfold step, stepC; cbn [fst].
    by destruct (commit_others false s (onCameraReady s)) as (-> & _).
  - unfold step, stepC; cbn [fst]. by destruct (timers s).
  - unfold step, stepC; cbn [fst]. destruct (timers s); try done.
    unfold analyzeFrame. by destruct (_ || _).
  - unfold step.
    destruct (pending s !! i) as [[cl|cl p]|] eqn:Hi;
      try (unfold stepC; rewrite Hi; done).
    destruct r as [[p|]|].
    + destruct (noUri (Some p)) eqn:Hu.
      * by rewrite (stepC_capture_noUri _ _ _ _ Hi Hu).
      * by rewrite (stepC_capture_photo _ _ _ _ Hi Hu).
    + by rewrite (stepC_capture_noUri _ _ _ None Hi eq_refl).
    + by rewrite (stepC_capture_rejected _ _ _ Hi).
  - destruct (pending s !! i) as [[cl|cl p]|] eqn:Hi;
      try (unfold step, stepC; rewrite Hi; done).
    destruct r as [faces|].
    + by destruct (step_detect_fulfilled_fields _ _ _ _ faces Hi)
        as (_ & _ & _ & _ & _ & -> & _).
    + unfold step. by rewrite (stepC_detect_rejected _ _ _ _ Hi).
Qed.

Lemma step_start_fields s :
  isReady (step StartCheck s) = true
  ∧ allChecksPassed (step StartCheck s) = false
  ∧ passStreak (step StartCheck s) = 0
  ∧ checklist (step StartCheck s) = checklist s
  ∧ pending (step StartCheck s) = pending s
  ∧ isCapturing (step StartCheck s) = isCapturing s.
Proof.
  unfold step, stepC; cbn [fst].
  by destruct (commit_others false s (startCheck s))
    as (-> & _ & -> & -> & -> & _ & -> & -> & _).
Qed.

Lemma step_streakWithinThree s e :
  oneInFlight s → streakWithinThree s → streakWithinThree (step e s).
Proof.
  intros (_ & _ & Hready) [Hle Hiff]. unfold streakWithinThree.
  destruct (event_cases e) as [-> | [-> | [Hs Hx]]].
  { destruct (step_start_fields s) as (_ & -> & -> & _). split; [lia|done]. }
  { destruct (step_reset_fields s) as (_ & -> & -> & _). split; [lia|done]. }
  destruct (evaluated e s) as [pc|] eqn:Hev.
  - assert (allChecksPassed s = false) as Ha.
    { destruct (allChecksPassed s); [|done].
      destruct e as [| | | | |i r|i [faces|]]; try done.
      simpl in Hev. rewrite (Hready eq_refl) in Hev. done. }
    assert (passStreak s < 3) as Hlt.
    { destruct (decide (passStreak s = 3)) as [E|E]; [|lia].
      apply Hiff in E. congruence. }
    destruct (step_evaluated _ _ _ Hev) as [-> ->]. rewrite Ha. simpl.
    case_decide; case_bool_decide; try done; simpl.
    + case_bool_decide; split; try lia; split; try done; lia.
    + split; [lia|]. split; [done|lia].
  - by destruct (step_not_evaluated s e (conj Hs Hx) Hev) as [-> ->].
Qed.

Lemma step_idle s e :
  (e = ResetCheck → pending s = []) →
  timersWhileRunning s →
  (isReady s = false → idle s) →
  isReady (step e s) = false → idle (step e s).
Proof.
  intros Hstop Htimers Hidle Hr.
  destruct (event_cases e) as [-> | [-> | [Hs Hx]]].
  { destruct (step_start_fields s) as (E & _). congruence. }
  { destruct (step_reset_fields s) as (_ & Ha & Hst & Hc & Ht & Hl & Hp & _).
    unfold idle. rewrite Ha, Hst, Hc, Ht, Hl, Hp, (Hstop eq_refl). done. }
  rewrite (step_isReady s e (conj Hs Hx)) in Hr.
  destruct (Hidle Hr) as (Hl & Hst & Ha & Ht & Hp & Hc).
  destruct e as [| | | | |i r|i r]; try done.
  - unfold step, stepC; cbn [fst]. unfold idle.
    destruct (commit_others false s (onCameraReady s))
      as (Er & _ & -> & -> & -> & _ & -> & -> & _).
    simpl. repeat split; try done.
    unfold commit, samplingEffect. simpl. rewrite Hr. simpl.
    by destruct (_ || _).
  - unfold step, stepC; cbn [fst]. rewrite Ht. by repeat split.
  - unfold step, stepC; cbn [fst]. rewrite Ht. by repeat split.
  - unfold step, stepC; cbn [fst]. rewrite Hp. simpl. by repeat split.
  - unfold step, stepC; cbn [fst]. rewrite Hp. simpl. by repeat split.
Qed.

Lemma run_session_invariants es :
  ∀ s, stopsWhenIdle es s →
       oneInFlight s → timersWhileRunning s → streakWithinThree s →
       (isReady s = false → idle s) →
       oneInFlight (run es s) ∧ streakWithinThree (run es s)
       ∧ (isReady (run es s) = false → idle (run es s)).
Proof.
  induction es as [|e es IH]; intros s Hes H1 H2 H3 H4; [done|].
  destruct Hes as [Hstop Hes]. simpl. apply IH; try done.
  - by apply step_oneInFlight.
  - by apply step_timersWhileRunning.
  - by apply step_streakWithinThree.
  - by apply step_idle.
Qed.

Lemma initial_session_invariants :
  oneInFlight initialState ∧ timersWhileRunning initialState
  ∧ streakWithinThree initialState ∧ (isReady initialState = false → idle initialState).
Proof.
  split; [|split; [|split]].
  - split; [done|]. split; [simpl; lia|done].
  - by intros H.
  - split; [simpl; lia|]. split; simpl; [done|lia].
  - intros _. by repeat split.
Qed.

Lemma stopsWhenIdle_no_reset es :
  ∀ s, Forall (λ e, e ≠ ResetCheck) es → stopsWhenIdle es s.
Proof.
  induction es as [|e es IH]; intros s Hes; [done|].
  apply Forall_cons in Hes as [He Hes]. simpl. split; [done|]. by apply IH.
Qed.

Lemma stopsWhenIdle_app es1 es2 s :
  stopsWhenIdle es1 s → stopsWhenIdle es2 (run es1 s) →
  stopsWhenIdle (es1 ++ es2) s.
Proof.
  revert s. induction es1 as [|e es1 IH]; intros s H1 H2; [done|].
  destruct H1 as [He H1]. simpl. split; [done|]. by apply IH.
Qed.

(** X15.  In a session in which the check is never stopped while a call is in
    flight, the streak never exceeds 3 and readiness is true exactly when
    the streak is 3. *)
Theorem session_streak_within_three es :
  stopsWhenIdle es initialState →
  let s := run es initialState in
  passStreak s ≤ 3 ∧ (allChecksPassed s = true ↔ passStreak s = 3).
Proof.
  intros Hes. cbv zeta.
  destruct initial_session_invariants as (H1 & H2 & H3 & H4).
  by destruct (run_session_invariants es _ Hes H1 H2 H3 H4) as (_ & H & _).
Qed.

Lemma session_streak_within_three_witness :
  passStreak (run ([StartCheck; OnCameraReady] ++ scenarioA ++ scenarioA)
                initialState) = 3.
Proof.
  assert (stopsWhenIdle ([StartCheck; OnCameraReady] ++ scenarioA ++ scenarioA)
            initialState) as Hes.
  { apply stopsWhenIdle_no_reset. repeat constructor; discriminate. }
  apply (proj2 (session_streak_within_three _ Hes)).
  vm_compute. reflexivity.
Defined.

(** X16.  From the first render, as long as the check is never stopped while a
    call is in flight, whenever the check is not started the program is back
    in its initial condition: the initial checklist, streak 0, readiness
    false, no timer armed and no call in flight. *)
Theorem stopped_session_is_idle es :
  stopsWhenIdle es initialState →
  let s := run es initialState in
  isReady s = false → idle s.
Proof.
  intros Hes. cbv zeta.
  destruct initial_session_invariants as (H1 & H2 & H3 & H4).
  by destruct (run_session_invariants es _ Hes H1 H2 H3 H4) as (_ & _ & H).
Qed.

Lemma stopped_session_is_idle_witness :
  idle (run ([StartCheck; OnCameraReady] ++ scenarioA ++ [ResetCheck])
          initialState).
Proof.
  assert (stopsWhenIdle ([StartCheck; OnCameraReady] ++ scenarioA ++ [ResetCheck])
            initialState) as Hes.
  { rewrite app_assoc. apply stopsWhenIdle_app.
    - apply stopsWhenIdle_no_reset. repeat constructor; discriminate.
    - split; [|done]. intros _. vm_compute. reflexivity. }
  apply (stopped_session_is_idle _ Hes). vm_compute. reflexivity.
Defined.

(** ** Undisturbed cycles *)

Lemma run_app es1 es2 s : run (es1 ++ es2) s = run es2 (run es1 s).
Proof. unfold run. apply foldl_app. Qed.

(** From a sampling state, the start delay and the interval begin a call. *)
Lemma sampling_begins_call s :
  sampling s →
  run [StartDelayElapsed; IntervalTick] s =
  setPending [AwaitCapture (checklist s)]
    (setIsCapturing true (setTimers Interval s)).
Proof.
  destruct s as [r c a n l cr ic t p k].
  intros ((Hr & Hc & Ha) & Hcr & Hic & Hp & Ht). simpl in *. subst.
  by destruct t.
Qed.

(** One undisturbed cycle that reaches the evaluation. *)
Lemma cycle_evaluates s p faces :
  sampling s → noUri (Some p) = false →
  let s' := run (cycle (Fulfilled (Some p)) (Fulfilled faces)) s in
  let pc := snd (evaluate (checklist s) faces p) in
  checklist s' = fst (evaluate (checklist s) faces p)
  ∧ passStreak s' = (if decide (pc = 5) then passStreak s + 1 else 0)
  ∧ allChecksPassed s' = (bool_decide (pc = 5) && bool_decide (2 ≤ passStreak s))
  ∧ isCapturing s' = false ∧ pending s' = []
  ∧ isReady s' = true ∧ cameraReady s' = true ∧ cameraRef s' = true
  ∧ timers s' = (if allChecksPassed s' then NoTimer else StartDelay).
Proof.
  intros Hs Hu. cbv zeta.
  change (cycle (Fulfilled (Some p)) (Fulfilled faces))
    with ([StartDelayElapsed; IntervalTick]
          ++ [CaptureSettled 0 (Fulfilled (Some p));
              DetectSettled 0 (Fulfilled faces)]).
  rewrite run_app, (sampling_begins_call _ Hs).
  destruct Hs as ((Hr & Hc & Ha) & Hcr & Hic & Hp & Ht).
  set (s2 := setPending [AwaitCapture (checklist s)]
               (setIsCapturing true (setTimers Interval s))).
  assert (pending s2 !! 0 = Some (AwaitCapture (checklist s))) as H2 by done.
  change (run [CaptureSettled 0 (Fulfilled (Some p));
               DetectSettled 0 (Fulfilled faces)] s2)
    with (step (DetectSettled 0 (Fulfilled faces))
            (step (CaptureSettled 0 (Fulfilled (Some p))) s2)).
  unfold step at 2 4 6 8 10 12 14 16 18 20.
  rewrite (stepC_capture_photo _ _ _ _ H2 Hu). cbn [fst].
  set (s3 := setPending _ s2).
  assert (pending s3 !! 0 = Some (AwaitDetect (checklist s) p)) as H3 by done.
  pose proof (step_detect_fulfilled_timers s3 0 _ _ faces H3) as Etimers.
  destruct (step_detect_fulfilled_fields s3 0 _ _ faces H3)
    as (-> & -> & Ea & -> & -> & -> & -> & ->).
  rewrite Etimers, Ea. simpl. rewrite Hr, Hc, Ha, Hcr. simpl.
  repeat split; try done.
  by destruct (bool_decide _), (bool_decide _).
Qed.

(** One undisturbed cycle that fails before the evaluation. *)
Lemma cycle_abandoned s capture detect :
  sampling s → cycleFails capture detect →
  let s' := run (cycle capture detect) s in
  isReady s' = isReady s ∧ cameraReady s' = cameraReady s
  ∧ allChecksPassed s' = allChecksPassed s ∧ passStreak s' = passStreak s
  ∧ checklist s' = checklist s ∧ cameraRef s' = cameraRef s
  ∧ isCapturing s' = false ∧ timers s' = Interval ∧ pending s' = [].
Proof.
  intros Hs Hf. cbv zeta.
  change (cycle capture detect)
    with ([StartDelayElapsed; IntervalTick]
          ++ [CaptureSettled 0 capture; DetectSettled 0 detect]).
  rewrite run_app, (sampling_begins_call _ Hs).
  set (s2 := setPending [AwaitCapture (checklist s)]
               (setIsCapturing true (setTimers Interval s))).
  assert (pending s2 !! 0 = Some (AwaitCapture (checklist s))) as H2 by done.
  change (run [CaptureSettled 0 capture; DetectSettled 0 detect] s2)
    with (step (DetectSettled 0 detect) (step (CaptureSettled 0 capture) s2)).
  destruct Hf as [-> | [(photo & -> & Hu) | (p & -> & Hu & ->)]].
  - unfold step. rewrite (stepC_capture_rejected _ _ _ H2). done.
  - unfold step. rewrite (stepC_capture_noUri _ _ _ _ H2 Hu). done.
  - unfold step at 2 4 6 8 10 12 14 16 18.
    rewrite (stepC_capture_photo _ _ _ _ H2 Hu). cbn [fst].
    set (s3 := setPending _ s2).
    assert (pending s3 !! 0 = Some (AwaitDetect (checklist s) p)) as H3 by done.
    unfold step. rewrite (stepC_detect_rejected _ _ _ _ H3). done.
Qed.

Lemma full_cycle s p faces :
  sampling s → fullPass p faces →
  let s' := run (cycle (Fulfilled (Some p)) (Fulfilled faces)) s in
  passStreak s' = passStreak s + 1
  ∧ (passStreak s < 2 → sampling s')
  ∧ (2 ≤ passStreak s →
       allChecksPassed s' = true ∧ timers s' = NoTimer
       ∧ pending s' = [] ∧ isCapturing s' = false).
Proof.
  intros Hs [Hu Hpc]. cbv zeta.
  destruct (cycle_evaluates s p faces Hs Hu)
    as (_ & Est & Ea & Ec & Ep & Er & Ecr & Eref & Et).
  rewrite (passCount_closure _ initialChecklist), Hpc in Est, Ea.
  rewrite decide_True in Est by done.
  rewrite (bool_decide_eq_true_2 (5 = 5)), andb_true_l in Ea by done.
  split; [done|]. split.
  - intros Hlt. rewrite bool_decide_eq_false_2 in Ea by lia.
    rewrite Ea in Et. unfold sampling, running.
    rewrite Er, Ecr, Ea, Eref, Ec, Ep, Et. done.
  - intros Hge. rewrite bool_decide_eq_true_2 in Ea by lia.
    rewrite Ea in Et. done.
Qed.

(** X17.  Progress: from a sampling state with streak 0, three undisturbed cycles
    whose frames pass all five criteria reach readiness, on the third cycle
    and not before, and leave the timers off and nothing in flight. *)
Theorem three_full_passes_reach_ready s p1 f1 p2 f2 p3 f3 :
  sampling s → passStreak s = 0 →
  fullPass p1 f1 → fullPass p2 f2 → fullPass p3 f3 →
  let c1 := cycle (Fulfilled (Some p1)) (Fulfilled f1) in
  let c2 := cycle (Fulfilled (Some p2)) (Fulfilled f2) in
  let c3 := cycle (Fulfilled (Some p3)) (Fulfilled f3) in
  let s' := run (c1 ++ c2 ++ c3) s in
  allChecksPassed (run c1 s) = false
  ∧ allChecksPassed (run (c1 ++ c2) s) = false
  ∧ allChecksPassed s' = true ∧ passStreak s' = 3
  ∧ timers s' = NoTimer ∧ pending s' = [] ∧ isCapturing s' = false.
Proof.
  intros Hs H0 F1 F2 F3. cbv zeta.
  destruct (full_cycle s p1 f1 Hs F1) as (E1 & S1 & _).
  specialize (S1 ltac:(lia)).
  destruct (full_cycle _ p2 f2 S1 F2) as (E2 & S2 & _).
  specialize (S2 ltac:(lia)).
  destruct (full_cycle _ p3 f3 S2 F3) as (E3 & _ & R3).
  specialize (R3 ltac:(lia)).
  rewrite !run_app.
  split; [apply S1|]. split; [apply S2|].
  destruct R3 as (-> & -> & -> & ->). rewrite E3, E2, E1, H0. done.
Qed.

Lemma three_full_passes_reach_ready_witness :
  allChecksPassed (run scenarioA sessionStart) = true
  ∧ passStreak (run scenarioA sessionStart) = 3.
Proof.
  assert (sampling sessionStart) as Hs by (repeat split; discriminate).
  assert (fullPass photoA [faceA]) as Hf by (split; vm_compute; reflexivity).
  destruct (three_full_passes_reach_ready sessionStart photoA [faceA]
              photoA [faceA] photoA [faceA] Hs eq_refl Hf Hf Hf)
    as (_ & _ & H1 & H2 & _).
  split; [exact H1 | exact H2].
Defined.

(** X18.  A cycle that fails before the evaluation leaves the loop sampling: the
    checklist and the streak are as before, the interval stays armed, and its
    next firing begins a new capture. *)
Theorem failed_cycle_keeps_sampling s capture detect :
  sampling s → cycleFails capture detect →
  let s' := run (cycle capture detect) s in
  sampling s' ∧ checklist s' = checklist s ∧ passStreak s' = passStreak s
  ∧ timers s' = Interval
  ∧ pending (step IntervalTick s') = [AwaitCapture (checklist s)].
Proof.
  intros Hs Hf. cbv zeta.
  destruct (cycle_abandoned s capture detect Hs Hf)
    as (Er & Ec & Ea & Est & El & Eref & Eic & Et & Ep).
  destruct Hs as ((Hr & Hc & Ha) & Href & _).
  set (s' := run (cycle capture detect) s) in *. clearbody s'.
  split; [|split; [done|split; [done|split; [done|]]]].
  - unfold sampling, running. rewrite Er, Ec, Ea, Eref, Eic, Et, Ep. done.
  - unfold step, stepC; cbn [fst]. rewrite Et. unfold analyzeFrame.
    rewrite Eref, Ec, Eic, Ea, Href, Hc, Ha. simpl. by rewrite Ep, El.
Qed.

Lemma failed_cycle_keeps_sampling_witness :
  let s' := run (cycle Rejected (Fulfilled [faceA])) sessionStart in
  checklist s' = initialChecklist ∧ passStreak s' = 0 ∧ timers s' = Interval
  ∧ pending (step IntervalTick s') = [AwaitCapture initialChecklist].
Proof.
  cbv zeta.
  assert (sampling sessionStart) as Hs by (repeat split; discriminate).
  destruct (failed_cycle_keeps_sampling sessionStart Rejected (Fulfilled [faceA])
              Hs (or_introl eq_refl)) as (_ & H1 & H2 & H3 & H4).
  split; [exact H1 | split; [exact H2 | split; [exact H3 | exact H4]]].
Defined.

(** X14.  The no-overlap rule over whole sessions: from the first render, as long
    as the check is never stopped while a call is in flight, at most one call
    of [analyzeFrame] is suspended at any time, none when the in-flight flag
    is clear and none once readiness is reached; and while one is suspended,
    a firing of the interval changes nothing. *)
Theorem session_one_call_at_a_time es :
  stopsWhenIdle es initialState →
  let s := run es initialState in
  length (pending s) ≤ 1
  ∧ (isCapturing s = false → pending s = [])
  ∧ (allChecksPassed s = true → pending s = [])
  ∧ (pending s ≠ [] → step IntervalTick s = s).
Proof.
  intros Hes. cbv zeta.
  destruct initial_session_invariants as (H1 & H2 & H3 & H4).
  destruct (run_session_invariants es _ Hes H1 H2 H3 H4)
    as ((Hflag & Hlen & Hready) & _ & _).
  split; [done|]. split; [done|]. split; [done|].
  intros Hne.
  set (s := run es initialState) in *. clearbody s.
  assert (isCapturing s = true) as Hc.
  { destruct (isCapturing s); [done|]. by destruct Hne; apply Hflag. }
  unfold step, stepC; cbn [fst]. unfold analyzeFrame.
  rewrite Hc, orb_true_r. by destruct (timers s).
Qed.

Lemma session_one_call_at_a_time_witness :
  let s := run [StartCheck; OnCameraReady; StartDelayElapsed; IntervalTick;
                CaptureSettled 0 (Fulfilled (Some photoA))] initialState in
  length (pending s) ≤ 1 ∧ step IntervalTick s = s.
Proof.
  cbv zeta.
  assert (stopsWhenIdle
            [StartCheck; OnCameraReady; StartDelayElapsed; IntervalTick;
             CaptureSettled 0 (Fulfilled (Some photoA))] initialState) as Hes.
  { apply stopsWhenIdle_no_reset. repeat constructor; discriminate. }
  destruct (session_one_call_at_a_time _ Hes) as (H1 & _ & _ & H4).
  split; [exact H1|]. apply H4. vm_compute. discriminate.
Defined.
